(** * A job-application tracker's data-access layer

    Shallow embedding of [models.py] and [data_provider.py]: the five value
    classes, the row mappers, the three statement helpers of [DataProvider]
    with their try/except/finally structure, and the twenty-five public
    operations, run against a small model of the MySQL connection the class
    owns. *)

From stdpp Require Import gmap strings list fin_maps sorting.
From Stdlib Require Import ZArith Lia.

Local Open Scope string_scope.
Local Open Scope Z_scope.

(** ** Python values and exceptions *)

(** What a column of a result row or a scalar field of a dataclass can hold:
    [None], an [int], a [str], a [Decimal] (unscaled digits and scale) or a
    [date].  The dataclasses do not check their annotations at run time, so
    scalar fields are of this type. *)
Inductive value :=
| VNone
| VInt (n : Z)
| VStr (s : string)
| VDecimal (unscaled scale : Z)
| VDate (year month day : Z).

#[global] Instance value_eq_dec : EqDecision value.
Proof. solve_decision. Defined.

(** [x is None] *)
Definition is_None (v : value) : bool :=
  match v with VNone => true | _ => false end.

(** The exceptions the code raises or lets through.  [DatabaseError] stands
    for every [mysql.connector.Error]; its number tells two of them apart. *)
Inductive exn :=
| ValueError (msg : string)
| KeyError (key : string)
| TypeError
| DatabaseError (errno : Z).

#[global] Instance exn_eq_dec : EqDecision exn.
Proof. solve_decision. Defined.

(** Outcome of a call: it returns a value or raises. *)
Inductive result (A : Type) :=
| Ok (a : A)
| Raise (e : exn).
Arguments Ok {A} a.
Arguments Raise {A} e.

Definition is_Ok {A} (r : result A) : bool :=
  match r with Ok _ => true | Raise _ => false end.

#[global] Instance result_ret : MRet result := λ A a, Ok a.
#[global] Instance result_bind : MBind result := λ A B k r,
  match r with Ok a => k a | Raise e => Raise e end.

(** ** models.py *)

Inductive StatusType :=
| SAVED | APPLIED | SCREEN | INTERVIEW | ASSESSMENT
| OFFER | ACCEPTED | REJECTED | WITHDRAWN | GHOSTED.

#[global] Instance StatusType_eq_dec : EqDecision StatusType.
Proof. solve_decision. Defined.

Definition StatusType_members : list StatusType :=
  [SAVED; APPLIED; SCREEN; INTERVIEW; ASSESSMENT;
   OFFER; ACCEPTED; REJECTED; WITHDRAWN; GHOSTED].

(** [member.value] *)
Definition StatusType_value (m : StatusType) : string :=
  match m with
  | SAVED => "SAVED" | APPLIED => "APPLIED" | SCREEN => "SCREEN"
  | INTERVIEW => "INTERVIEW" | ASSESSMENT => "ASSESSMENT" | OFFER => "OFFER"
  | ACCEPTED => "ACCEPTED" | REJECTED => "REJECTED"
  | WITHDRAWN => "WITHDRAWN" | GHOSTED => "GHOSTED"
  end.

(** [StatusType(x)]: look the member up by value, [ValueError] when there
    is none. *)
Definition StatusType_of (v : value) : result StatusType :=
  match v with
  | VStr s =>
      match List.find (λ m, bool_decide (StatusType_value m = s)) StatusType_members with
      | Some m => Ok m
      | None => Raise (ValueError "is not a valid StatusType")
      end
  | _ => Raise (ValueError "is not a valid StatusType")
  end.

Module Company.
Record t := Build {
  company_id : value;
  name : value;
  website : value;
  company_location : value
}.
(** [dataclasses.replace(c, company_id=v)] *)
Definition replace_company_id (c : t) (v : value) : t :=
  Build v (name c) (website c) (company_location c).
End Company.

Module Contact.
Record t := Build {
  contact_id : value;
  company_id : value;
  full_name : value;
  title : value;
  email : value;
  phone : value;
  linkedin : value
}.
Definition replace_contact_id (c : t) (v : value) : t :=
  Build v (company_id c) (full_name c) (title c) (email c) (phone c) (linkedin c).
End Contact.

Module JobPosting.
Record t := Build {
  job_id : value;
  company_id : value;
  job_title : value;
  job_location : value;
  employment_type : value;
  job_url : value;
  salary : value;
  posted_date : value
}.
Definition replace_job_id (j : t) (v : value) : t :=
  Build v (company_id j) (job_title j) (job_location j) (employment_type j)
        (job_url j) (salary j) (posted_date j).
End JobPosting.

Module Application.
Record t := Build {
  application_id : value;
  job_id : value;
  applied_date : value;
  source : value;
  priority : value;
  resume : value
}.
Definition replace_application_id (a : t) (v : value) : t :=
  Build v (job_id a) (applied_date a) (source a) (priority a) (resume a).
End Application.

Module ApplicationStatus.
Record t := Build {
  company : Company.t;
  contact : option Contact.t;
  job : JobPosting.t;
  application : Application.t;
  status_id : value;
  status : StatusType
}.
Definition replace_status_id (s : t) (v : value) : t :=
  Build (company s) (contact s) (job s) (application s) v (status s).
End ApplicationStatus.

(** ** Result rows and the row mappers *)

(** A row of a dictionary cursor: column name to value. *)
Abbreviation row := (gmap string value).

(** [row[k]]: [KeyError] when the key is missing. *)
Definition getitem (r : row) (k : string) : result value :=
  match r !! k with
  | Some v => Ok v
  | None => Raise (KeyError k)
  end.

(** [row.get(k)]: [None] when the key is missing. *)
Definition get (r : row) (k : string) : value :=
  default VNone (r !! k).

Definition _company_from_row (r : row) : result Company.t :=
  company_id ← getitem r "company_id";
  name ← getitem r "name";
  Ok (Company.Build company_id name (get r "website") (get r "company_location")).

Definition _contact_from_row (r : row) : result Contact.t :=
  contact_id ← getitem r "contact_id";
  company_id ← getitem r "company_id";
  full_name ← getitem r "full_name";
  Ok (Contact.Build contact_id company_id full_name
        (get r "title") (get r "email") (get r "phone") (get r "linkedin")).

Definition _job_posting_from_row (r : row) : result JobPosting.t :=
  job_id ← getitem r "job_id";
  company_id ← getitem r "company_id";
  job_title ← getitem r "job_title";
  Ok (JobPosting.Build job_id company_id job_title
        (get r "job_location") (get r "employment_type") (get r "job_url")
        (get r "salary") (get r "posted_date")).

Definition _application_from_row (r : row) : result Application.t :=
  application_id ← getitem r "application_id";
  job_id ← getitem r "job_id";
  Ok (Application.Build application_id job_id
        (get r "applied_date") (get r "source") (get r "priority") (get r "resume")).

Definition _application_status_from_join_row (r : row) : result ApplicationStatus.t :=
  company ← (c_company_id ← getitem r "c_company_id";
              c_name ← getitem r "c_name";
              Ok (Company.Build c_company_id c_name
                    (get r "c_website") (get r "c_company_location")));
  job ← (j_job_id ← getitem r "j_job_id";
          j_company_id ← getitem r "j_company_id";
          j_job_title ← getitem r "j_job_title";
          Ok (JobPosting.Build j_job_id j_company_id j_job_title
                (get r "j_job_location") (get r "j_employment_type")
                (get r "j_job_url") (get r "j_salary") (get r "j_posted_date")));
  application ← (a_application_id ← getitem r "a_application_id";
                  a_job_id ← getitem r "a_job_id";
                  Ok (Application.Build a_application_id a_job_id
                        (get r "a_applied_date") (get r "a_source")
                        (get r "a_priority") (get r "a_resume")));
  contact ← (if is_None (get r "ct_contact_id") then Ok None
              else
                ct_contact_id ← getitem r "ct_contact_id";
                ct_company_id ← getitem r "ct_company_id";
                ct_full_name ← getitem r "ct_full_name";
                Ok (Some (Contact.Build ct_contact_id ct_company_id ct_full_name
                            (get r "ct_title") (get r "ct_email")
                            (get r "ct_phone") (get r "ct_linkedin"))));
  s_status_id ← getitem r "s_status_id";
  status ← (s_status ← getitem r "s_status"; StatusType_of s_status);
  Ok (ApplicationStatus.Build company contact job application s_status_id status).

(** ** The database behind the connection

    The MySQL server and its connector are outside the repository.  They
    are modelled as far as the statements of [data_provider.py] go: five
    tables keyed by an integer primary key, the eight shapes of statement
    the class sends, and a connection with an implicit transaction. *)

(** Modelled from the spec: the schema (the DDL of the five tables) is not
    among the sources.  The tables are those the spec lists under
    "Persisted schema"; their names and columns are those of the SQL text in
    [data_provider.py]. *)
Inductive table :=
| tbl_company | tbl_contact | tbl_job_posting | tbl_application | tbl_application_status.

#[global] Instance table_eq_dec : EqDecision table.
Proof. solve_decision. Defined.

Definition table_name (t : table) : string :=
  match t with
  | tbl_company => "company"
  | tbl_contact => "contact"
  | tbl_job_posting => "job_posting"
  | tbl_application => "application"
  | tbl_application_status => "application_status"
  end.

Definition all_tables : list table :=
  [tbl_company; tbl_contact; tbl_job_posting; tbl_application; tbl_application_status].

Definition table_of_name (n : string) : option table :=
  List.find (λ t, bool_decide (table_name t = n)) all_tables.

(** Modelled from the spec: the identifier column of each table, its
    primary key, assigned by the INSERT; the column names are those of the
    WHERE clauses in [data_provider.py]. *)
Definition pk_col (t : table) : string :=
  match t with
  | tbl_company => "company_id"
  | tbl_contact => "contact_id"
  | tbl_job_posting => "job_id"
  | tbl_application => "application_id"
  | tbl_application_status => "status_id"
  end.

(** Modelled from the spec: a table holds at most one row per identifier.
    Its rows are kept under their primary key (the stored row holds the
    other columns), with the next auto-increment value. *)
Record table_data := TableData {
  rows : gmap Z row;
  next_id : Z
}.

Record database := Database {
  db_company : table_data;
  db_contact : table_data;
  db_job_posting : table_data;
  db_application : table_data;
  db_application_status : table_data
}.

Definition db_get (t : table) (d : database) : table_data :=
  match t with
  | tbl_company => db_company d
  | tbl_contact => db_contact d
  | tbl_job_posting => db_job_posting d
  | tbl_application => db_application d
  | tbl_application_status => db_application_status d
  end.

Definition db_set (t : table) (x : table_data) (d : database) : database :=
  match t with
  | tbl_company =>
      Database x (db_contact d) (db_job_posting d) (db_application d) (db_application_status d)
  | tbl_contact =>
      Database (db_company d) x (db_job_posting d) (db_application d) (db_application_status d)
  | tbl_job_posting =>
      Database (db_company d) (db_contact d) x (db_application d) (db_application_status d)
  | tbl_application =>
      Database (db_company d) (db_contact d) (db_job_posting d) x (db_application_status d)
  | tbl_application_status =>
      Database (db_company d) (db_contact d) (db_job_posting d) (db_application d) x
  end.

(** The statements of [data_provider.py], one constructor per shape of SQL
    text; [%s] placeholders are filled from the parameter tuple. *)
Inductive sql :=
| INSERT_INTO (t : table) (cols : list string)
    (* INSERT INTO t (cols) VALUES (%s, ...) *)
| SELECT_WHERE_PK (cols : list string) (t : table)
    (* SELECT cols FROM t WHERE pk = %s *)
| SELECT_ORDER_BY_PK (cols : list string) (t : table)
    (* SELECT cols FROM t ORDER BY pk *)
| SELECT_1_WHERE (tname col : string)
    (* SELECT 1 FROM tname WHERE col = %s LIMIT 1 *)
| UPDATE_SET_WHERE_PK (t : table) (cols : list string)
    (* UPDATE t SET cols = %s, ... WHERE pk = %s *)
| DELETE_WHERE_PK (t : table)
    (* DELETE FROM t WHERE pk = %s *)
| STATUS_JOIN_WHERE_ID
    (* _STATUS_JOIN_SELECT + " WHERE s.status_id = %s" *)
| STATUS_JOIN_ORDER_BY_ID.
    (* _STATUS_JOIN_SELECT + " ORDER BY s.status_id" *)

(** What a cursor holds after [execute]. *)
Record cursor := Cursor {
  result_rows : list row;
  rowcount : Z;
  lastrowid : option Z
}.

(** A key parameter selects a row only when it is an integer; comparing a
    key with NULL is never true. *)
Definition key_of (v : value) : option Z :=
  match v with VInt k => Some k | _ => None end.

Definition find_row (t : table) (v : value) (d : database) : option row :=
  k ← key_of v; rows (db_get t d) !! k.

(** The row as a SELECT sees it: the stored columns and the key. *)
Definition full_row (t : table) (k : Z) (r : row) : row :=
  <[pk_col t := VInt k]> r.

(** The select list: one entry per named column, NULL when the row has no
    value for it. *)
Definition project (cols : list string) (r : row) : row :=
  list_to_map ((λ c, (c, get r c)) <$> cols).

(** ORDER BY on the primary key: the rows of a table by ascending key. *)
Definition key_le : relation (Z * row) := λ x y, x.1 ≤ y.1.

#[global] Instance key_le_dec : RelDecision key_le.
Proof. intros x y. unfold key_le. apply _. Defined.

Definition rows_ordered (t : table) (d : database) : list (Z * row) :=
  merge_sort key_le (map_to_list (rows (db_get t d))).

(** Column [c] of a joined table under the alias [prefix ++ c]. *)
Definition alias (prefix : string) (cols : list string) (r : row) : list (string * value) :=
  (λ c, (prefix +:+ c, get r c)) <$> cols.

(** The select list of [_STATUS_JOIN_SELECT], per joined table. *)
Definition status_join_cols : list string := ["status_id"; "status"].
Definition application_join_cols : list string :=
  ["application_id"; "job_id"; "applied_date"; "source"; "priority"; "resume"].
Definition job_join_cols : list string :=
  ["job_id"; "company_id"; "job_title"; "job_location"; "employment_type";
   "job_url"; "salary"; "posted_date"].
Definition company_join_cols : list string :=
  ["company_id"; "name"; "website"; "company_location"].
Definition contact_join_cols : list string :=
  ["contact_id"; "company_id"; "full_name"; "title"; "email"; "phone"; "linkedin"].

Definition join_row (s a j c ct : row) : row :=
  list_to_map (alias "s_" status_join_cols s ++ alias "a_" application_join_cols a
               ++ alias "j_" job_join_cols j ++ alias "c_" company_join_cols c
               ++ alias "ct_" contact_join_cols ct).

(** LEFT JOIN contact ct ON s.contact_id = ct.contact_id: the contact row, or
    NULL in every contact column. *)
Definition left_join_contact (d : database) (s : row) : row :=
  match key_of (get s "contact_id") with
  | Some ct_id =>
      match rows (db_contact d) !! ct_id with
      | Some ct => full_row tbl_contact ct_id ct
      | None => ∅
      end
  | None => ∅
  end.

(** One status row through the joins of [_STATUS_JOIN_SELECT]: the inner
    joins drop it unless application, job and company are all found. *)
Definition status_join (d : database) (sid : Z) (s : row) : option row :=
  a_id ← key_of (get s "application_id");
  a ← rows (db_application d) !! a_id;
  j_id ← key_of (get a "job_id");
  j ← rows (db_job_posting d) !! j_id;
  c_id ← key_of (get j "company_id");
  c ← rows (db_company d) !! c_id;
  Some (join_row (full_row tbl_application_status sid s)
                 (full_row tbl_application a_id a)
                 (full_row tbl_job_posting j_id j)
                 (full_row tbl_company c_id c)
                 (left_join_contact d s)).

Definition ER_DUP_ENTRY : Z := 1062.
Definition ER_NO_SUCH_TABLE : Z := 1146.
Definition ER_WRONG_PARAMETERS : Z := -1.

Definition no_change (d : database) : result (cursor * database) :=
  Ok (Cursor [] 0 None, d).

(** Running one statement on a database: the cursor it leaves and the new
    database, or a server error.  UPDATE counts the rows it changed, not the
    rows it matched (the connector's default, which [_execute_update_delete]
    and the Update methods are written for).  Constraints of the schema
    other than the primary key (foreign keys, NOT NULL, column types) are
    not decided here: a statement they reject is a statement the
    environment fails, see [faults] below. *)
Definition exec_sql (q : sql) (ps : list value) (d : database) : result (cursor * database) :=
  match q with
  | INSERT_INTO t cols =>
      if bool_decide (length ps = length cols) then
        let td := db_get t d in
        let k := next_id td in
        match rows td !! k with
        | Some _ => Raise (DatabaseError ER_DUP_ENTRY)
        | None =>
            Ok (Cursor [] 1 (Some k),
                db_set t (TableData (<[k := list_to_map (zip cols ps)]> (rows td)) (k + 1)) d)
        end
      else Raise (DatabaseError ER_WRONG_PARAMETERS)
  | SELECT_WHERE_PK cols t =>
      match ps with
      | [v] =>
          let found := match find_row t v d, key_of v with
                       | Some r, Some k => [project cols (full_row t k r)]
                       | _, _ => []
                       end in
          Ok (Cursor found (Z.of_nat (length found)) None, d)
      | _ => Raise (DatabaseError ER_WRONG_PARAMETERS)
      end
  | SELECT_ORDER_BY_PK cols t =>
      match ps with
      | [] =>
          let found := (λ kr, project cols (full_row t kr.1 kr.2)) <$> rows_ordered t d in
          Ok (Cursor found (Z.of_nat (length found)) None, d)
      | _ => Raise (DatabaseError ER_WRONG_PARAMETERS)
      end
  | SELECT_1_WHERE tname col =>
      match table_of_name tname, ps with
      | None, _ => Raise (DatabaseError ER_NO_SUCH_TABLE)
      | Some t, [v] =>
          let matching :=
            if bool_decide (col = pk_col t) then
              match find_row t v d with Some _ => [()] | None => [] end
            else
              (λ _, ()) <$>
                filter (λ kr, v ≠ VNone ∧ get (full_row t kr.1 kr.2) col = v) (rows_ordered t d) in
          let found := (λ _, {["1" := VInt 1]}) <$> take 1 matching in
          Ok (Cursor found (Z.of_nat (length found)) None, d)
      | Some _, _ => Raise (DatabaseError ER_WRONG_PARAMETERS)
      end
  | UPDATE_SET_WHERE_PK t cols =>
      if bool_decide (length ps = S (length cols)) then
        let td := db_get t d in
        match key_of (default VNone (last ps)) with
        | Some k =>
            match rows td !! k with
            | Some old =>
                let new := list_to_map (zip cols (take (length cols) ps)) ∪ old in
                if bool_decide (new = old) then no_change d
                else Ok (Cursor [] 1 None,
                         db_set t (TableData (<[k := new]> (rows td)) (next_id td)) d)
            | None => no_change d
            end
        | None => no_change d
        end
      else Raise (DatabaseError ER_WRONG_PARAMETERS)
  | DELETE_WHERE_PK t =>
      match ps with
      | [v] =>
          let td := db_get t d in
          match key_of v with
          | Some k =>
              match rows td !! k with
              | Some _ =>
                  Ok (Cursor [] 1 None, db_set t (TableData (delete k (rows td)) (next_id td)) d)
              | None => no_change d
              end
          | None => no_change d
          end
      | _ => Raise (DatabaseError ER_WRONG_PARAMETERS)
      end
  | STATUS_JOIN_WHERE_ID =>
      match ps with
      | [v] =>
          let found := match find_row tbl_application_status v d, key_of v with
                       | Some s, Some sid => option_list (status_join d sid s)
                       | _, _ => []
                       end in
          Ok (Cursor found (Z.of_nat (length found)) None, d)
      | _ => Raise (DatabaseError ER_WRONG_PARAMETERS)
      end
  | STATUS_JOIN_ORDER_BY_ID =>
      match ps with
      | [] =>
          let found := omap (λ kr, status_join d kr.1 kr.2)
                            (rows_ordered tbl_application_status d) in
          Ok (Cursor found (Z.of_nat (length found)) None, d)
      | _ => Raise (DatabaseError ER_WRONG_PARAMETERS)
      end
  end.

(** ** The connection *)

(** The calls on the connection and its cursors, with their outcome. *)
Inductive event :=
| EvCursor
| EvExecute (q : sql) (ps : list value) (ok : bool)
| EvCommit (ok : bool)
| EvRollback (ok : bool)
| EvCursorClose.

(** The connection a [DataProvider] owns.  [committed] is the durable
    database, [working] what the statements of the current transaction see
    and change.  [faults] is the environment: the outcome of the coming
    [execute], [commit] and [rollback] calls, one entry per call, [Some n]
    making the call raise [DatabaseError n]; past its end no call fails.
    [log] records the calls made so far, latest last.  [session_faults] is
    the environment of the other calls on the connector, [cursor()],
    [cur.close()] and the read of [autocommit] (a query to the server in
    mysql-connector), in the same way: one entry per call, [Some n] making
    it raise. *)
Record connection := Connection {
  committed : database;
  working : database;
  in_transaction : bool;
  autocommit : bool;
  faults : list (option Z);
  log : list event;
  session_faults : list (option Z)
}.

(** Computations on the connection: a result and the connection after, also
    when the computation raises. *)
Definition M (A : Type) : Type := connection → result A * connection.

#[global] Instance M_ret : MRet M := λ A a c, (Ok a, c).
#[global] Instance M_bind : MBind M := λ A B k m c,
  match m c with
  | (Ok a, c') => k a c'
  | (Raise e, c') => (Raise e, c')
  end.

Definition raise {A} (e : exn) : M A := λ c, (Raise e, c).

Definition lift {A} (r : result A) : M A := λ c, (r, c).

(** [try: body  except Exception as e: handler e] *)
Definition try_except {A} (body : M A) (handler : exn → M A) : M A := λ c,
  match body c with
  | (Ok a, c') => (Ok a, c')
  | (Raise e, c') => handler e c'
  end.

(** [try: body  finally: cleanup]: the cleanup runs on both exits; when it
    raises, its exception is the one that leaves the statement. *)
Definition try_finally {A} (body : M A) (cleanup : M ()) : M A := λ c,
  match body c with
  | (r, c') =>
      match cleanup c' with
      | (Ok _, c'') => (r, c'')
      | (Raise e, c'') => (Raise e, c'')
      end
  end.

Definition emit (ev : event) (c : connection) : connection :=
  Connection (committed c) (working c) (in_transaction c) (autocommit c)
             (faults c) (log c ++ [ev]) (session_faults c).

(** The outcome the environment has for the next fallible call. *)
Definition next_fault (c : connection) : option Z * connection :=
  match faults c with
  | [] => (None, c)
  | f :: fs =>
      (f, Connection (committed c) (working c) (in_transaction c) (autocommit c) fs (log c)
                     (session_faults c))
  end.

(** The outcome the environment has for the next call of [cursor()],
    [cur.close()] or [autocommit]. *)
Definition next_session_fault (c : connection) : option Z * connection :=
  match session_faults c with
  | [] => (None, c)
  | f :: fs =>
      (f, Connection (committed c) (working c) (in_transaction c) (autocommit c)
                     (faults c) (log c) fs)
  end.

(** A failed statement changes no row but, with autocommit off, it has
    begun the implicit transaction. *)
Definition statement_failed (c : connection) : connection :=
  Connection (committed c) (working c) (in_transaction c || negb (autocommit c))
             (autocommit c) (faults c) (log c) (session_faults c).

Definition statement_done (d : database) (c : connection) : connection :=
  if autocommit c
  then Connection d d (in_transaction c) true (faults c) (log c) (session_faults c)
  else Connection (committed c) d true false (faults c) (log c) (session_faults c).

(** [self._conn.cursor()]: it raises when the environment says so, and no
    cursor is open then. *)
Definition conn_cursor : M () := λ c,
  match next_session_fault c with
  | (Some n, c1) => (Raise (DatabaseError n), emit EvCursor c1)
  | (None, c1) => (Ok (), emit EvCursor c1)
  end.

(** [cur.close()]: it raises when the environment says so.  It touches
    neither the data nor the transaction.  A cursor serves [fetchone] and
    [fetchall] from the rows its [execute] obtained. *)
Definition cur_close : M () := λ c,
  match next_session_fault c with
  | (Some n, c1) => (Raise (DatabaseError n), emit EvCursorClose c1)
  | (None, c1) => (Ok (), emit EvCursorClose c1)
  end.

(** [cur.execute(sql, params)] *)
Definition cur_execute (q : sql) (ps : list value) : M cursor := λ c,
  match next_fault c with
  | (Some n, c1) => (Raise (DatabaseError n), emit (EvExecute q ps false) (statement_failed c1))
  | (None, c1) =>
      match exec_sql q ps (working c1) with
      | Raise e => (Raise e, emit (EvExecute q ps false) (statement_failed c1))
      | Ok (cur, d) => (Ok cur, emit (EvExecute q ps true) (statement_done d c1))
      end
  end.

(** [self._conn.commit()].  A commit or a rollback that raises has done
    nothing: the pending changes stay pending. *)
Definition conn_commit : M () := λ c,
  match next_fault c with
  | (Some n, c1) => (Raise (DatabaseError n), emit (EvCommit false) c1)
  | (None, c1) =>
      (Ok (), emit (EvCommit true)
                (Connection (working c1) (working c1) false (autocommit c1) (faults c1) (log c1)
                            (session_faults c1)))
  end.

(** [self._conn.rollback()] *)
Definition conn_rollback : M () := λ c,
  match next_fault c with
  | (Some n, c1) => (Raise (DatabaseError n), emit (EvRollback false) c1)
  | (None, c1) =>
      (Ok (), emit (EvRollback true)
                (Connection (committed c1) (committed c1) false (autocommit c1) (faults c1)
                            (log c1) (session_faults c1)))
  end.

(** [self._conn.autocommit]: the flag of the session, unless the read
    raises; the read changes nothing. *)
Definition conn_autocommit : M bool := λ c,
  match next_session_fault c with
  | (Some n, c1) => (Raise (DatabaseError n), c1)
  | (None, c1) => (Ok (autocommit c1), c1)
  end.

(** ** data_provider.py: internal helpers *)

(** What [_execute] hands back: [None], one row ([fetchone]) or a list of
    rows ([fetchall]). *)
Inductive fetched :=
| FetchedNone
| FetchedRow (r : row)
| FetchedRows (rs : list row).

Definition cur_fetchone (cur : cursor) : fetched :=
  match result_rows cur with
  | r :: _ => FetchedRow r
  | [] => FetchedNone
  end.

Definition cur_fetchall (cur : cursor) : fetched :=
  FetchedRows (result_rows cur).

Definition _execute (q : sql) (params : list value) (fetchone fetchall : bool) : M fetched :=
  conn_cursor;;
  try_finally
    (cur ← cur_execute q params;
     if fetchone then mret (cur_fetchone cur)
     else if fetchall then mret (cur_fetchall cur)
     else mret FetchedNone)
    (cur_close;;
     ac ← conn_autocommit;
     if negb ac
     then try_except conn_rollback (λ _, mret ())
     else mret ()).

Definition _execute_write (q : sql) (params : list value) : M Z :=
  conn_cursor;;
  try_finally
    (try_except
       (cur ← cur_execute q params;
        conn_commit;;
        mret (default 0 (lastrowid cur)))
       (λ e, conn_rollback;; raise e))
    cur_close.

Definition _execute_update_delete (q : sql) (params : list value) : M Z :=
  conn_cursor;;
  try_finally
    (try_except
       (cur ← cur_execute q params;
        let rc := rowcount cur in
        conn_commit;;
        mret rc)
       (λ e, conn_rollback;; raise e))
    cur_close.

Definition _read_one {T} (q : sql) (params : list value) (mapper : row → result T)
  : M (option T) :=
  fetched_row ← _execute q params true false;
  match fetched_row with
  | FetchedNone => mret None
  | FetchedRow r => x ← lift (mapper r); mret (Some x)
  | FetchedRows _ => raise TypeError
  end.

Definition _read_many {T} (q : sql) (mapper : row → result T) : M (list T) :=
  fetched_rows ← _execute q [] false true;
  match fetched_rows with
  | FetchedNone => mret []
  | FetchedRows rs => lift (mapM mapper rs)
  | FetchedRow r => if bool_decide (r = ∅) then mret [] else raise TypeError
  end.

Definition _exists (tname pk_col : string) (pk_value : value) : M bool :=
  fetched_row ← _execute (SELECT_1_WHERE tname pk_col) [pk_value] true false;
  mret (match fetched_row with FetchedNone => false | _ => true end).

(** ** 1) COMPANY CRUD *)

Definition company_cols : list string := ["name"; "website"; "company_location"].

Definition CreateCompany (company : Company.t) : M Company.t :=
  new_id ← _execute_write (INSERT_INTO tbl_company company_cols)
             [Company.name company; Company.website company;
              Company.company_location company];
  mret (Company.replace_company_id company (VInt new_id)).

Definition ReadCompanyByID (company_id : value) : M (option Company.t) :=
  _read_one (SELECT_WHERE_PK ("company_id" :: company_cols) tbl_company)
            [company_id] _company_from_row.

Definition ReadAllCompanies : M (list Company.t) :=
  _read_many (SELECT_ORDER_BY_PK ("company_id" :: company_cols) tbl_company)
             _company_from_row.

Definition UpdateCompany (company : Company.t) : M bool :=
  if is_None (Company.company_id company)
  then raise (ValueError "UpdateCompany requires company.company_id to be set.")
  else
    rc ← _execute_update_delete (UPDATE_SET_WHERE_PK tbl_company company_cols)
           [Company.name company; Company.website company;
            Company.company_location company; Company.company_id company];
    if bool_decide (rc > 0) then mret true
    else _exists "company" "company_id" (Company.company_id company).

Definition DeleteCompany (company_id : value) : M bool :=
  rc ← _execute_update_delete (DELETE_WHERE_PK tbl_company) [company_id];
  mret (bool_decide (rc > 0)).

(** ** 2) CONTACT CRUD *)

Definition contact_cols : list string :=
  ["company_id"; "full_name"; "title"; "email"; "phone"; "linkedin"].

Definition CreateContact (contact : Contact.t) : M Contact.t :=
  new_id ← _execute_write (INSERT_INTO tbl_contact contact_cols)
             [Contact.company_id contact; Contact.full_name contact;
              Contact.title contact; Contact.email contact;
              Contact.phone contact; Contact.linkedin contact];
  mret (Contact.replace_contact_id contact (VInt new_id)).

Definition ReadContactByID (contact_id : value) : M (option Contact.t) :=
  _read_one (SELECT_WHERE_PK ("contact_id" :: contact_cols) tbl_contact)
            [contact_id] _contact_from_row.

Definition ReadAllContacts : M (list Contact.t) :=
  _read_many (SELECT_ORDER_BY_PK ("contact_id" :: contact_cols) tbl_contact)
             _contact_from_row.

Definition UpdateContact (contact : Contact.t) : M bool :=
  if is_None (Contact.contact_id contact)
  then raise (ValueError "UpdateContact requires contact.contact_id to be set.")
  else
    rc ← _execute_update_delete (UPDATE_SET_WHERE_PK tbl_contact contact_cols)
           [Contact.company_id contact; Contact.full_name contact;
            Contact.title contact; Contact.email contact;
            Contact.phone contact; Contact.linkedin contact;
            Contact.contact_id contact];
    if bool_decide (rc > 0) then mret true
    else _exists "contact" "contact_id" (Contact.contact_id contact).

Definition DeleteContact (contact_id : value) : M bool :=
  rc ← _execute_update_delete (DELETE_WHERE_PK tbl_contact) [contact_id];
  mret (bool_decide (rc > 0)).

(** ** 3) JOB_POSTING CRUD *)

Definition job_posting_cols : list string :=
  ["company_id"; "job_title"; "job_location"; "employment_type"; "job_url";
   "salary"; "posted_date"].

Definition CreateJobPosting (job : JobPosting.t) : M JobPosting.t :=
  new_id ← _execute_write (INSERT_INTO tbl_job_posting job_posting_cols)
             [JobPosting.company_id job; JobPosting.job_title job;
              JobPosting.job_location job; JobPosting.employment_type job;
              JobPosting.job_url job; JobPosting.salary job;
              JobPosting.posted_date job];
  mret (JobPosting.replace_job_id job (VInt new_id)).

Definition ReadJobPostingByID (job_id : value) : M (option JobPosting.t) :=
  _read_one (SELECT_WHERE_PK ("job_id" :: job_posting_cols) tbl_job_posting)
            [job_id] _job_posting_from_row.

Definition ReadAllJobPostings : M (list JobPosting.t) :=
  _read_many (SELECT_ORDER_BY_PK ("job_id" :: job_posting_cols) tbl_job_posting)
             _job_posting_from_row.

Definition UpdateJobPosting (job : JobPosting.t) : M bool :=
  if is_None (JobPosting.job_id job)
  then raise (ValueError "UpdateJobPosting requires job.job_id to be set.")
  else
    rc ← _execute_update_delete (UPDATE_SET_WHERE_PK tbl_job_posting job_posting_cols)
           [JobPosting.company_id job; JobPosting.job_title job;
            JobPosting.job_location job; JobPosting.employment_type job;
            JobPosting.job_url job; JobPosting.salary job;
            JobPosting.posted_date job; JobPosting.job_id job];
    if bool_decide (rc > 0) then mret true
    else _exists "job_posting" "job_id" (JobPosting.job_id job).

Definition DeleteJobPosting (job_id : value) : M bool :=
  rc ← _execute_update_delete (DELETE_WHERE_PK tbl_job_posting) [job_id];
  mret (bool_decide (rc > 0)).

(** ** 4) APPLICATION CRUD *)

Definition application_cols : list string :=
  ["job_id"; "applied_date"; "source"; "priority"; "resume"].

Definition CreateApplication (app : Application.t) : M Application.t :=
  new_id ← _execute_write (INSERT_INTO tbl_application application_cols)
             [Application.job_id app; Application.applied_date app;
              Application.source app; Application.priority app;
              Application.resume app];
  mret (Application.replace_application_id app (VInt new_id)).

Definition ReadApplicationByID (application_id : value) : M (option Application.t) :=
  _read_one (SELECT_WHERE_PK ("application_id" :: application_cols) tbl_application)
            [application_id] _application_from_row.

Definition ReadAllApplications : M (list Application.t) :=
  _read_many (SELECT_ORDER_BY_PK ("application_id" :: application_cols) tbl_application)
             _application_from_row.

Definition UpdateApplication (app : Application.t) : M bool :=
  if is_None (Application.application_id app)
  then raise (ValueError "UpdateApplication requires app.application_id to be set.")
  else
    rc ← _execute_update_delete (UPDATE_SET_WHERE_PK tbl_application application_cols)
           [Application.job_id app; Application.applied_date app;
            Application.source app; Application.priority app;
            Application.resume app; Application.application_id app];
    if bool_decide (rc > 0) then mret true
    else _exists "application" "application_id" (Application.application_id app).

Definition DeleteApplication (application_id : value) : M bool :=
  rc ← _execute_update_delete (DELETE_WHERE_PK tbl_application) [application_id];
  mret (bool_decide (rc > 0)).

(** ** 5) APPLICATION_STATUS CRUD *)

Definition application_status_cols : list string :=
  ["application_id"; "contact_id"; "status"].

(** [None if status.contact is None else status.contact.contact_id] *)
Definition contact_id_of (status : ApplicationStatus.t) : value :=
  match ApplicationStatus.contact status with
  | None => VNone
  | Some c => Contact.contact_id c
  end.

(** [status.contact is not None and status.contact.contact_id is None] *)
Definition contact_without_id (status : ApplicationStatus.t) : bool :=
  match ApplicationStatus.contact status with
  | None => false
  | Some c => is_None (Contact.contact_id c)
  end.

Definition CreateApplicationStatus (status : ApplicationStatus.t) : M ApplicationStatus.t :=
  if is_None (Application.application_id (ApplicationStatus.application status))
  then raise (ValueError
    "CreateApplicationStatus requires status.application.application_id to be set.")
  else
    let contact_id := contact_id_of status in
    if contact_without_id status
    then raise (ValueError
      "CreateApplicationStatus: status.contact.contact_id must be set (or contact=None).")
    else
      new_id ← _execute_write (INSERT_INTO tbl_application_status application_status_cols)
                 [Application.application_id (ApplicationStatus.application status);
                  contact_id;
                  VStr (StatusType_value (ApplicationStatus.status status))];
      mret (ApplicationStatus.replace_status_id status (VInt new_id)).

Definition ReadApplicationStatusByID (status_id : value) : M (option ApplicationStatus.t) :=
  fetched_row ← _execute STATUS_JOIN_WHERE_ID [status_id] true false;
  match fetched_row with
  | FetchedNone => mret None
  | FetchedRow r => x ← lift (_application_status_from_join_row r); mret (Some x)
  | FetchedRows _ => raise TypeError
  end.

Definition ReadAllApplicationStatuses : M (list ApplicationStatus.t) :=
  fetched_rows ← _execute STATUS_JOIN_ORDER_BY_ID [] false true;
  match fetched_rows with
  | FetchedNone => mret []
  | FetchedRows rs => lift (mapM _application_status_from_join_row rs)
  | FetchedRow r => if bool_decide (r = ∅) then mret [] else raise TypeError
  end.

Definition UpdateApplicationStatus (status : ApplicationStatus.t) : M bool :=
  if is_None (ApplicationStatus.status_id status)
  then raise (ValueError "UpdateApplicationStatus requires status.status_id to be set.")
  else if is_None (Application.application_id (ApplicationStatus.application status))
  then raise (ValueError
    "UpdateApplicationStatus requires status.application.application_id to be set.")
  else
    let contact_id := contact_id_of status in
    if contact_without_id status
    then raise (ValueError
      "UpdateApplicationStatus: status.contact.contact_id must be set (or contact=None).")
    else
      rc ← _execute_update_delete
             (UPDATE_SET_WHERE_PK tbl_application_status application_status_cols)
             [Application.application_id (ApplicationStatus.application status);
              contact_id;
              VStr (StatusType_value (ApplicationStatus.status status));
              ApplicationStatus.status_id status];
      if bool_decide (rc > 0) then mret true
      else _exists "application_status" "status_id" (ApplicationStatus.status_id status).

Definition DeleteApplicationStatus (status_id : value) : M bool :=
  rc ← _execute_update_delete (DELETE_WHERE_PK tbl_application_status) [status_id];
  mret (bool_decide (rc > 0)).

(** ** The public surface, per entity

    [CreateX], [ReadXByID], [ReadAllX], [UpdateX] and [DeleteX] for X among
    the five entity types: each dispatches to the method of that name in
    [DataProvider]. *)

Inductive entity :=
| ACompany (v : Company.t)
| AContact (v : Contact.t)
| AJobPosting (v : JobPosting.t)
| AApplication (v : Application.t)
| AApplicationStatus (v : ApplicationStatus.t).

Definition entity_table (x : entity) : table :=
  match x with
  | ACompany _ => tbl_company
  | AContact _ => tbl_contact
  | AJobPosting _ => tbl_job_posting
  | AApplication _ => tbl_application
  | AApplicationStatus _ => tbl_application_status
  end.

(** The identifier field of a value. *)
Definition entity_id (x : entity) : value :=
  match x with
  | ACompany v => Company.company_id v
  | AContact v => Contact.contact_id v
  | AJobPosting v => JobPosting.job_id v
  | AApplication v => Application.application_id v
  | AApplicationStatus v => ApplicationStatus.status_id v
  end.

(** The value with its identifier field replaced, every other field kept. *)
Definition with_id (x : entity) (i : value) : entity :=
  match x with
  | ACompany v => ACompany (Company.replace_company_id v i)
  | AContact v => AContact (Contact.replace_contact_id v i)
  | AJobPosting v => AJobPosting (JobPosting.replace_job_id v i)
  | AApplication v => AApplication (Application.replace_application_id v i)
  | AApplicationStatus v => AApplicationStatus (ApplicationStatus.replace_status_id v i)
  end.

#[global] Instance M_fmap : FMap M := λ A B f m, x ← m; mret (f x).

Definition CreateX (x : entity) : M entity :=
  match x with
  | ACompany v => ACompany <$> CreateCompany v
  | AContact v => AContact <$> CreateContact v
  | AJobPosting v => AJobPosting <$> CreateJobPosting v
  | AApplication v => AApplication <$> CreateApplication v
  | AApplicationStatus v => AApplicationStatus <$> CreateApplicationStatus v
  end.

Definition ReadXByID (t : table) (id : value) : M (option entity) :=
  match t with
  | tbl_company => fmap ACompany <$> ReadCompanyByID id
  | tbl_contact => fmap AContact <$> ReadContactByID id
  | tbl_job_posting => fmap AJobPosting <$> ReadJobPostingByID id
  | tbl_application => fmap AApplication <$> ReadApplicationByID id
  | tbl_application_status => fmap AApplicationStatus <$> ReadApplicationStatusByID id
  end.

Definition ReadAllX (t : table) : M (list entity) :=
  match t with
  | tbl_company => fmap ACompany <$> ReadAllCompanies
  | tbl_contact => fmap AContact <$> ReadAllContacts
  | tbl_job_posting => fmap AJobPosting <$> ReadAllJobPostings
  | tbl_application => fmap AApplication <$> ReadAllApplications
  | tbl_application_status => fmap AApplicationStatus <$> ReadAllApplicationStatuses
  end.

Definition UpdateX (x : entity) : M bool :=
  match x with
  | ACompany v => UpdateCompany v
  | AContact v => UpdateContact v
  | AJobPosting v => UpdateJobPosting v
  | AApplication v => UpdateApplication v
  | AApplicationStatus v => UpdateApplicationStatus v
  end.

Definition DeleteX (t : table) (id : value) : M bool :=
  match t with
  | tbl_company => DeleteCompany id
  | tbl_contact => DeleteContact id
  | tbl_job_posting => DeleteJobPosting id
  | tbl_application => DeleteApplication id
  | tbl_application_status => DeleteApplicationStatus id
  end.

(** ** Vocabulary of the statements below *)

(** The outcome the environment holds for the [i]-th coming fallible call. *)
Definition fault_at (c : connection) (i : nat) : option Z :=
  default None (faults c !! i).

(** What the next [execute] of [q] does: the environment's fault, or the
    server's answer on the working database. *)
Definition statement_outcome (q : sql) (ps : list value) (c : connection)
  : result (cursor * database) :=
  match fault_at c 0 with
  | Some n => Raise (DatabaseError n)
  | None => exec_sql q ps (working c)
  end.

(** The row with key [id] of table [t]. *)
Definition row_of (t : table) (id : Z) (d : database) : option row :=
  rows (db_get t d) !! id.

(** The outcome the environment holds for the [i]-th coming call of
    [cursor()], [cur.close()] or [autocommit]. *)
Definition session_fault_at (c : connection) (i : nat) : option Z :=
  default None (session_faults c !! i).

(** The provider's connection in a session that works: autocommit is
    switched off at construction and never touched again, and opening a
    cursor, closing it and reading the autocommit flag do not raise.  The
    statements about [execute], [commit] and [rollback] and their failures
    are made on such a connection; the statement on what reads do on every
    exit path is made for every session. *)
Definition provider_connection (c : connection) : Prop :=
  autocommit c = false ∧ session_faults c = [].

(** A sample database: two companies, one contact, one job, one
    application, and two statuses of it, the second without contact. *)
Definition sample_database : database :=
  Database
    (TableData
       (list_to_map
          [(1, list_to_map [("name", VStr "Acme"); ("website", VStr "https://acme.test");
                            ("company_location", VStr "Remote")]);
           (2, list_to_map [("name", VStr "Beta"); ("website", VNone);
                            ("company_location", VNone)])]) 3)
    (TableData
       (list_to_map
          [(1, list_to_map [("company_id", VInt 1); ("full_name", VStr "Ann Lee");
                            ("title", VNone); ("email", VStr "ann@acme.test");
                            ("phone", VNone); ("linkedin", VNone)])]) 2)
    (TableData
       (list_to_map
          [(1, list_to_map [("company_id", VInt 1); ("job_title", VStr "Engineer");
                            ("job_location", VNone); ("employment_type", VNone);
                            ("job_url", VNone); ("salary", VDecimal 9500000 2);
                            ("posted_date", VDate 2026 1 15)])]) 2)
    (TableData
       (list_to_map
          [(1, list_to_map [("job_id", VInt 1); ("applied_date", VDate 2026 1 20);
                            ("source", VNone); ("priority", VInt 2);
                            ("resume", VNone)])]) 2)
    (TableData
       (list_to_map
          [(2, list_to_map [("application_id", VInt 1); ("contact_id", VNone);
                            ("status", VStr "SCREEN")]);
           (1, list_to_map [("application_id", VInt 1); ("contact_id", VInt 1);
                            ("status", VStr "APPLIED")])]) 3).

(** A fresh connection on the sample database, with the given faults. *)
Definition sample_connection (fs : list (option Z)) : connection :=
  Connection sample_database sample_database false false fs [] [].

(** Closed forms of the three statement helpers on the provider's
    connection, used to reason about them without replaying the monad. *)

Definition fetch (fetchone fetchall : bool) (cur : cursor) : fetched :=
  if fetchone then cur_fetchone cur
  else if fetchall then cur_fetchall cur
  else FetchedNone.

Definition read_closed_form (q : sql) (ps : list value) (f1 f2 : bool) (c : connection)
  : result fetched * connection :=
  let o := statement_outcome q ps c in
  let rolled_back := bool_decide (fault_at c 1 = None) in
  (match o with Ok (cur, _) => Ok (fetch f1 f2 cur) | Raise e => Raise e end,
   Connection (committed c)
     (if rolled_back then committed c
      else match o with Ok (_, d) => d | Raise _ => working c end)
     (negb rolled_back) false (drop 2 (faults c))
     (log c ++ [EvCursor; EvExecute q ps (is_Ok o); EvCursorClose; EvRollback rolled_back])
     []).

Definition write_closed_form (val : cursor → Z) (q : sql) (ps : list value) (c : connection)
  : result Z * connection :=
  match statement_outcome q ps c with
  | Ok (cur, d) =>
      match fault_at c 1 with
      | None =>
          (Ok (val cur),
           Connection d d false false (drop 2 (faults c))
             (log c ++ [EvCursor; EvExecute q ps true; EvCommit true; EvCursorClose]) [])
      | Some m =>
          match fault_at c 2 with
          | None =>
              (Raise (DatabaseError m),
               Connection (committed c) (committed c) false false (drop 3 (faults c))
                 (log c ++ [EvCursor; EvExecute q ps true; EvCommit false;
                            EvRollback true; EvCursorClose]) [])
          | Some k =>
              (Raise (DatabaseError k),
               Connection (committed c) d true false (drop 3 (faults c))
                 (log c ++ [EvCursor; EvExecute q ps true; EvCommit false;
                            EvRollback false; EvCursorClose]) [])
          end
      end
  | Raise e =>
      match fault_at c 1 with
      | None =>
          (Raise e,
           Connection (committed c) (committed c) false false (drop 2 (faults c))
             (log c ++ [EvCursor; EvExecute q ps false; EvRollback true; EvCursorClose]) [])
      | Some k =>
          (Raise (DatabaseError k),
           Connection (committed c) (working c) true false (drop 2 (faults c))
             (log c ++ [EvCursor; EvExecute q ps false; EvRollback false; EvCursorClose])
             [])
      end
  end.

(** The columns an INSERT or UPDATE of a table sets, and the values a
    value object supplies for them, in the order of the SQL text. *)
Definition table_cols (t : table) : list string :=
  match t with
  | tbl_company => company_cols
  | tbl_contact => contact_cols
  | tbl_job_posting => job_posting_cols
  | tbl_application => application_cols
  | tbl_application_status => application_status_cols
  end.

Definition entity_params (x : entity) : list value :=
  match x with
  | ACompany v =>
      [Company.name v; Company.website v; Company.company_location v]
  | AContact v =>
      [Contact.company_id v; Contact.full_name v; Contact.title v;
       Contact.email v; Contact.phone v; Contact.linkedin v]
  | AJobPosting v =>
      [JobPosting.company_id v; JobPosting.job_title v; JobPosting.job_location v;
       JobPosting.employment_type v; JobPosting.job_url v; JobPosting.salary v;
       JobPosting.posted_date v]
  | AApplication v =>
      [Application.job_id v; Application.applied_date v; Application.source v;
       Application.priority v; Application.resume v]
  | AApplicationStatus v =>
      [Application.application_id (ApplicationStatus.application v);
       contact_id_of v;
       VStr (StatusType_value (ApplicationStatus.status v))]
  end.

(** The references a status must carry before it is written: its
    application has an identifier, and so has its contact when present. *)
Definition references_set (x : entity) : bool :=
  match x with
  | AApplicationStatus v =>
      negb (is_None (Application.application_id (ApplicationStatus.application v)))
      && negb (contact_without_id v)
  | _ => true
  end.

(** The shape the five Create, Update and Delete methods share. *)
Definition create_form (x : entity) : M entity :=
  new_id ← _execute_write (INSERT_INTO (entity_table x) (table_cols (entity_table x)))
             (entity_params x);
  mret (with_id x (VInt new_id)).

Definition update_form (x : entity) : M bool :=
  rc ← _execute_update_delete
         (UPDATE_SET_WHERE_PK (entity_table x) (table_cols (entity_table x)))
         (entity_params x ++ [entity_id x]);
  if bool_decide (rc > 0) then mret true
  else _exists (table_name (entity_table x)) (pk_col (entity_table x)) (entity_id x).

Definition delete_form (t : table) (id : value) : M bool :=
  rc ← _execute_update_delete (DELETE_WHERE_PK t) [id];
  mret (bool_decide (rc > 0)).

(** The shape the five read methods share: the SELECT of the table and
    the mapper from its rows. *)
Definition select_by_id (t : table) : sql :=
  match t with
  | tbl_application_status => STATUS_JOIN_WHERE_ID
  | _ => SELECT_WHERE_PK (pk_col t :: table_cols t) t
  end.

Definition select_all (t : table) : sql :=
  match t with
  | tbl_application_status => STATUS_JOIN_ORDER_BY_ID
  | _ => SELECT_ORDER_BY_PK (pk_col t :: table_cols t) t
  end.

#[global] Instance result_fmap : FMap result := λ A B f r, x ← r; mret (f x).

Definition row_mapper (t : table) (r : row) : result entity :=
  match t with
  | tbl_company => ACompany <$> _company_from_row r
  | tbl_contact => AContact <$> _contact_from_row r
  | tbl_job_posting => AJobPosting <$> _job_posting_from_row r
  | tbl_application => AApplication <$> _application_from_row r
  | tbl_application_status => AApplicationStatus <$> _application_status_from_join_row r
  end.

Definition read_one_form (t : table) (id : value) : M (option entity) :=
  fetched_row ← _execute (select_by_id t) [id] true false;
  match fetched_row with
  | FetchedNone => mret None
  | FetchedRow r => x ← lift (row_mapper t r); mret (Some x)
  | FetchedRows _ => raise TypeError
  end.

Definition read_many_form (t : table) : M (list entity) :=
  fetched_rows ← _execute (select_all t) [] false true;
  match fetched_rows with
  | FetchedNone => mret []
  | FetchedRows rs => lift (mapM (row_mapper t) rs)
  | FetchedRow r => if bool_decide (r = ∅) then mret [] else raise TypeError
  end.

(** The rows the server returns for the two SELECTs of a table. *)
Definition rows_by_id (t : table) (id : Z) (d : database) : list row :=
  match row_of t id d with
  | Some r =>
      match t with
      | tbl_application_status => option_list (status_join d id r)
      | _ => [project (pk_col t :: table_cols t) (full_row t id r)]
      end
  | None => []
  end.

Definition rows_all (t : table) (d : database) : list row :=
  match t with
  | tbl_application_status =>
      omap (λ kr, status_join d kr.1 kr.2) (rows_ordered tbl_application_status d)
  | _ =>
      (λ kr, project (pk_col t :: table_cols t) (full_row t kr.1 kr.2)) <$> rows_ordered t d
  end.

(** The contract of a read that runs the SELECT [q]: from connection [c]
    it made exactly the calls cursor, execute, close, rollback, in that
    order and whatever the outcome of the execute; the rollback, when it
    succeeded, left no transaction open and no pending change; the
    committed database is untouched; and an error of the SELECT is the
    error of the read, whether or not the rollback failed. *)
Definition read_contract {A} (q : sql) (ps : list value) (c : connection)
    (out : result A * connection) : Prop :=
  let rolled_back := bool_decide (fault_at c 1 = None) in
  log out.2 = (log c ++ [EvCursor; EvExecute q ps (is_Ok (statement_outcome q ps c));
                         EvCursorClose; EvRollback rolled_back])%list ∧
  (rolled_back = true → in_transaction out.2 = false ∧ working out.2 = committed out.2) ∧
  committed out.2 = committed c ∧
  (∀ e, statement_outcome q ps c = Raise e → out.1 = Raise e).



(** The objects the mappers build from the rows of the five tables, each
    row as a SELECT sees it (stored columns and key). *)
Definition company_of_row (c : row) : Company.t :=
  Company.Build (get c "company_id") (get c "name") (get c "website")
                (get c "company_location").

Definition contact_of_row (ct : row) : Contact.t :=
  Contact.Build (get ct "contact_id") (get ct "company_id") (get ct "full_name")
                (get ct "title") (get ct "email") (get ct "phone") (get ct "linkedin").

Definition job_posting_of_row (j : row) : JobPosting.t :=
  JobPosting.Build (get j "job_id") (get j "company_id") (get j "job_title")
                   (get j "job_location") (get j "employment_type") (get j "job_url")
                   (get j "salary") (get j "posted_date").

Definition application_of_row (a : row) : Application.t :=
  Application.Build (get a "application_id") (get a "job_id") (get a "applied_date")
                    (get a "source") (get a "priority") (get a "resume").

Definition status_of_rows (s a j c ct : row) (m : StatusType) : ApplicationStatus.t :=
  ApplicationStatus.Build
    (company_of_row c)
    (if is_None (get ct "contact_id") then None else Some (contact_of_row ct))
    (job_posting_of_row j)
    (application_of_row a)
    (get s "status_id") m.

(** A status object is chain-consistent in database [d] when it is built
    from a status row of [d], the application row that status row
    references, the job row that application references and the company row
    that job references. *)
Definition chain_consistent (d : database) (st : ApplicationStatus.t) : Prop :=
  ∃ sid s a_id a j_id j c_id c,
    row_of tbl_application_status sid d = Some s ∧
    ApplicationStatus.status_id st = VInt sid ∧
    get s "application_id" = VInt a_id ∧
    row_of tbl_application a_id d = Some a ∧
    ApplicationStatus.application st = application_of_row (full_row tbl_application a_id a) ∧
    get a "job_id" = VInt j_id ∧
    row_of tbl_job_posting j_id d = Some j ∧
    ApplicationStatus.job st = job_posting_of_row (full_row tbl_job_posting j_id j) ∧
    get j "company_id" = VInt c_id ∧
    row_of tbl_company c_id d = Some c ∧
    ApplicationStatus.company st = company_of_row (full_row tbl_company c_id c).

(** The row a SELECT ... ORDER BY returns for a stored row, if any: the
    projection for the four plain tables, the join for the statuses. *)
Definition select_row (t : table) (d : database) (kr : Z * row) : option row :=
  match t with
  | tbl_application_status => status_join d kr.1 kr.2
  | _ => Some (project (pk_col t :: table_cols t) (full_row t kr.1 kr.2))
  end.

(** * Vocabulary of the further properties *)

(** The row an INSERT or UPDATE stores for a value object. *)
Definition stored_row (x : entity) : row :=
  list_to_map (zip (table_cols (entity_table x)) (entity_params x)).

(** One call of a CRUD method on the provider, for any of the five kinds of
    object. *)
Inductive call :=
| CallCreate (x : entity)
| CallReadByID (t : table) (id : value)
| CallReadAll (t : table)
| CallUpdate (x : entity)
| CallDelete (t : table) (id : value).

(** The connection a call leaves behind, whatever it returned or raised. *)
Definition after (k : call) (c : connection) : connection :=
  match k with
  | CallCreate x => (CreateX x c).2
  | CallReadByID t id => (ReadXByID t id c).2
  | CallReadAll t => (ReadAllX t c).2
  | CallUpdate x => (UpdateX x c).2
  | CallDelete t id => (DeleteX t id c).2
  end.





(** smoke_test.py, [main], step 3: the four calls on the provider, in the
    order of the source, and what each returned; [unique_name] is the name made
    from the clock. The [print]s between them are left out. *)
Definition smoke_test_company_crud (unique_name : value)
  : M (Company.t * bool * option Company.t * bool) :=
  created ← CreateCompany
              (Company.Build VNone unique_name (VStr "https://test.example.com")
                             (VStr "Remote"));
  let updated_company :=
    Company.Build (Company.company_id created) unique_name
                  (VStr "https://test.example.com") (VStr "Austin, TX") in
  ok_update ← UpdateCompany updated_company;
  fetched ← ReadCompanyByID (Company.company_id created);
  ok_delete ← DeleteCompany (Company.company_id created);
  mret (created, ok_update, fetched, ok_delete).

(** A small database: one company, one job of it, one application for that
    job, and one status of that application without contact. *)
Definition small_database : database :=
  Database
    (TableData {[ 1 := list_to_map [("name", VStr "Acme"); ("website", VNone);
                                    ("company_location", VStr "Remote")] ]} 2)
    (TableData ∅ 1)
    (TableData {[ 1 := list_to_map [("company_id", VInt 1); ("job_title", VStr "Engineer");
                                    ("job_location", VNone); ("employment_type", VNone);
                                    ("job_url", VNone); ("salary", VNone);
                                    ("posted_date", VNone)] ]} 2)
    (TableData {[ 1 := list_to_map [("job_id", VInt 1); ("applied_date", VNone);
                                    ("source", VNone); ("priority", VNone);
                                    ("resume", VNone)] ]} 2)
    (TableData {[ 1 := list_to_map [("application_id", VInt 1); ("contact_id", VNone);
                                    ("status", VStr "APPLIED")] ]} 2).

(** The same with a status string that is none of the ten. *)
Definition unknown_status_database : database :=
  Database (db_company small_database) (db_contact small_database)
           (db_job_posting small_database) (db_application small_database)
           (TableData {[ 1 := list_to_map [("application_id", VInt 1); ("contact_id", VNone);
                                           ("status", VStr "PENDING")] ]} 2).

Definition small_connection : connection :=
  Connection small_database small_database false false [] [] [].

Definition unknown_status_connection : connection :=
  Connection unknown_status_database unknown_status_database false false [] [] [].

Definition gamma : Company.t := Company.Build VNone (VStr "Gamma") VNone (VStr "Remote").
Definition acme_moved : Company.t :=
  Company.Build (VInt 1) (VStr "Acme") VNone (VStr "Austin, TX").
Definition screen_status : ApplicationStatus.t :=
  ApplicationStatus.Build
    (Company.Build (VInt 1) (VStr "Acme") VNone (VStr "Remote"))
    None
    (JobPosting.Build (VInt 1) (VInt 1) (VStr "Engineer") VNone VNone VNone VNone VNone)
    (Application.Build (VInt 1) (VInt 1) VNone VNone VNone VNone)
    VNone SCREEN.

(** ** Reads when the session fails *)

(** A connection as [c] with the outcomes of the session's coming local
    calls replaced. *)
Definition with_session_faults (ss : list (option Z)) (c : connection) : connection :=
  Connection (committed c) (working c) (in_transaction c) (autocommit c)
             (faults c) (log c) ss.

(** The three local calls of one read, [cursor()], [cur.close()] and the
    read of [autocommit], do not raise. *)
Definition local_calls_succeed (c : connection) : Prop :=
  session_fault_at c 0 = None ∧ session_fault_at c 1 = None ∧
  session_fault_at c 2 = None.

(** A read on which [cursor()] raised error [n]: that error is the read's,
    the one call logged is [cursor()], and no statement was run: data and
    transaction are as they were. *)
Definition cursor_refused {A} (n : Z) (c : connection) (out : result A * connection)
  : Prop :=
  out.1 = Raise (DatabaseError n) ∧ log out.2 = (log c ++ [EvCursor])%list ∧
  committed out.2 = committed c ∧ working out.2 = working c ∧
  in_transaction out.2 = in_transaction c.

(** The claim on reads as the specification words it, for the outcome [out]
    of a read that runs the SELECT [q] from connection [c]: rollback was
    called, as the last call, on this exit path; no transaction is left open;
    and an error of the SELECT is the error the caller gets. *)
Definition read_claim {A} (q : sql) (ps : list value) (c : connection)
    (out : result A * connection) : Prop :=
  (∃ ok, last (log out.2) = Some (EvRollback ok)) ∧
  in_transaction out.2 = false ∧
  (∀ e, statement_outcome q ps c = Raise e → out.1 = Raise e).

(** A session that is lost during a read: the SELECT fails with error 2013
    and the read of [autocommit] that follows fails with error 2006. *)
Definition lost_connection : connection :=
  Connection small_database small_database false false [Some 2013] []
             [None; None; Some 2006].

(** A session on which the rollback after a SELECT fails with error 2055. *)
Definition rollback_failing_connection : connection :=
  Connection small_database small_database false false [None; Some 2055] [] [].

(** A session on which the SELECT fails with error 2013 and the rollback
    with error 2055, while the local calls succeed. *)
Definition failing_connection : connection :=
  Connection small_database small_database false false [Some 2013; Some 2055] []
             [None; None; None; Some 2006].

(** ** The schema behind ReadAll *)

(** Modelled from the spec: the schema's invariant that every foreign key
    references an existing row (the schema itself is not among the sources).
    [references t col t' d]: column [col] of every row of [t] holds the key
    of a row of [t']. *)
Definition references (t : table) (col : string) (t' : table) (d : database) : bool :=
  forallb (λ kr : Z * row,
             match key_of (get kr.2 col) with
             | Some k' => bool_decide (is_Some (row_of t' k' d))
             | None => false
             end)
          (map_to_list (rows (db_get t d))).

(** Modelled from the spec: the required references on the way from a status
    to its company, each to an existing row. *)
Definition foreign_keys_valid (d : database) : Prop :=
  references tbl_application_status "application_id" tbl_application d = true ∧
  references tbl_application "job_id" tbl_job_posting d = true ∧
  references tbl_job_posting "company_id" tbl_company d = true.

(** Modelled from the spec: the status column holds the string of one of the
    ten members of the enum. *)
Definition status_column_valid (d : database) : Prop :=
  forallb (λ kr : Z * row, is_Ok (StatusType_of (get kr.2 "status")))
          (map_to_list (rows (db_application_status d))) = true.

(** * Properties *)

Ltac run_monad :=
  cbv [mbind mret fmap M_bind M_ret M_fmap try_finally try_except raise lift
       conn_cursor cur_close cur_execute conn_commit conn_rollback conn_autocommit
       next_fault next_session_fault emit statement_failed statement_done
       committed working in_transaction autocommit faults log session_faults].

Ltac norm_log := repeat rewrite <- app_assoc; simpl.

Section Helpers.
Variables (q : sql) (ps : list value) (c : connection).
Hypothesis Hauto : provider_connection c.

Lemma _execute_closed f1 f2 :
  _execute q ps f1 f2 c = read_closed_form q ps f1 f2 c.
Proof using Hauto.
  revert Hauto. destruct c as [cm wk it ac fs lg ss]. unfold provider_connection.
  simpl; intros [-> ->].
  unfold _execute, read_closed_form, statement_outcome, fault_at, fetch.
  destruct fs as [|[n|] [|[m|] fs]]; run_monad; simpl;
    try (destruct (exec_sql q ps wk) as [[cur d]|e]; simpl);
    destruct f1, f2; simpl; rewrite ?orb_true_r; norm_log; reflexivity.
Qed.

Lemma _execute_write_closed :
  _execute_write q ps c = write_closed_form (λ cur, default 0 (lastrowid cur)) q ps c.
Proof using Hauto.
  revert Hauto. destruct c as [cm wk it ac fs lg ss]. unfold provider_connection.
  simpl; intros [-> ->].
  unfold _execute_write, write_closed_form, statement_outcome, fault_at.
  destruct fs as [|[n|] [|[m|] [|[k|] fs]]]; run_monad; simpl;
    try (destruct (exec_sql q ps wk) as [[cur d]|e]; simpl);
    rewrite ?orb_true_r; norm_log; reflexivity.
Qed.

Lemma _execute_update_delete_closed :
  _execute_update_delete q ps c = write_closed_form rowcount q ps c.
Proof using Hauto.
  revert Hauto. destruct c as [cm wk it ac fs lg ss]. unfold provider_connection.
  simpl; intros [-> ->].
  unfold _execute_update_delete, write_closed_form, statement_outcome, fault_at.
  destruct fs as [|[n|] [|[m|] [|[k|] fs]]]; run_monad; simpl;
    try (destruct (exec_sql q ps wk) as [[cur d]|e]; simpl);
    rewrite ?orb_true_r; norm_log; reflexivity.
Qed.
End Helpers.

(** Every error of the server is a [DatabaseError]. *)
Lemma exec_sql_error q ps d e :
  exec_sql q ps d = Raise e → ∃ n, e = DatabaseError n.
Proof.
  unfold exec_sql, no_change; intros H.
  repeat (case_match; simplify_eq); eauto.
Qed.

Lemma statement_outcome_error q ps c e :
  statement_outcome q ps c = Raise e → ∃ n, e = DatabaseError n.
Proof.
  unfold statement_outcome. destruct (fault_at c 0); [intros [= <-]; eauto|].
  apply exec_sql_error.
Qed.

(** ** Validation *)

Lemma update_without_id_refused x c :
  entity_id x = VNone → ∃ msg, UpdateX x c = (Raise (ValueError msg), c).
Proof.
  destruct x as [v|v|v|v|v]; simpl; intros H;
    [unfold UpdateCompany|unfold UpdateContact|unfold UpdateJobPosting
    |unfold UpdateApplication|unfold UpdateApplicationStatus];
    rewrite H; simpl; eauto.
Qed.

(** C7. UpdateX on a value whose identifier is absent, and
    CreateApplicationStatus on a status whose application has no identifier
    or whose contact is present without one, raise a ValueError and leave
    the connection exactly as it was: no call reached the database, no
    state changed. *)
Theorem validation_before_any_database_call :
  (∀ x c, entity_id x = VNone →
     ∃ msg, UpdateX x c = (Raise (ValueError msg), c)) ∧
  (∀ st c,
     Application.application_id (ApplicationStatus.application st) = VNone ∨
     (∃ ct, ApplicationStatus.contact st = Some ct ∧ Contact.contact_id ct = VNone) →
     ∃ msg, CreateApplicationStatus st c = (Raise (ValueError msg), c)).
Proof.
  split.
  - intros x c. apply update_without_id_refused.
  - intros st c H. unfold CreateApplicationStatus, contact_without_id.
    destruct (is_None (Application.application_id (ApplicationStatus.application st))) eqn:E;
      [eauto|].
    destruct H as [H|(ct & Hct & Hid)]; [rewrite H in E; discriminate|].
    rewrite Hct, Hid. simpl. eauto.
Qed.

Lemma validation_before_any_database_call_witness :
  (∃ msg, UpdateX (ACompany (Company.Build VNone (VStr "Acme") VNone VNone))
                  (sample_connection []) =
          (Raise (ValueError msg), sample_connection [])) ∧
  (∃ msg, CreateApplicationStatus
            (ApplicationStatus.Build
               (Company.Build (VInt 1) (VStr "Acme") VNone VNone)
               (Some (Contact.Build VNone (VInt 1) (VStr "Ann Lee") VNone VNone VNone VNone))
               (JobPosting.Build (VInt 1) (VInt 1) (VStr "Engineer")
                                 VNone VNone VNone VNone VNone)
               (Application.Build (VInt 1) (VInt 1) VNone VNone VNone VNone)
               VNone SCREEN)
            (sample_connection []) =
          (Raise (ValueError msg), sample_connection [])).
Proof.
  split.
  - apply (proj1 validation_before_any_database_call). reflexivity.
  - apply (proj2 validation_before_any_database_call). right.
    eexists. split; reflexivity.
Defined.

(** ** The methods against their common shapes *)

Lemma CreateX_form x c :
  references_set x = true → CreateX x c = create_form x c.
Proof.
  destruct x as [v|v|v|v|v]; simpl; intros Href; unfold create_form; simpl;
    [unfold CreateCompany|unfold CreateContact|unfold CreateJobPosting
    |unfold CreateApplication|unfold CreateApplicationStatus];
    try (apply andb_true_iff in Href as [H1 H2];
         apply negb_true_iff in H1, H2; rewrite H1, H2);
    cbv [fmap M_fmap mbind M_bind mret M_ret];
    match goal with |- context [_execute_write ?q ?p c] =>
      destruct (_execute_write q p c) as [[n|e] c'] end; reflexivity.
Qed.

Lemma UpdateX_form x c :
  entity_id x ≠ VNone → references_set x = true → UpdateX x c = update_form x c.
Proof.
  destruct x as [v|v|v|v|v]; simpl; intros Hid Href; unfold update_form; simpl;
    [unfold UpdateCompany|unfold UpdateContact|unfold UpdateJobPosting
    |unfold UpdateApplication|unfold UpdateApplicationStatus];
    try (apply andb_true_iff in Href as [H1 H2];
         apply negb_true_iff in H1, H2; rewrite H1, H2);
    match goal with |- context [is_None ?i] =>
      destruct i; try congruence end; reflexivity.
Qed.

Lemma DeleteX_form t id c : DeleteX t id c = delete_form t id c.
Proof. destruct t; reflexivity. Qed.

(** ** The server's statements *)

Arguments exec_sql : simpl never.

Lemma db_get_set_eq t x d : db_get t (db_set t x d) = x.
Proof. destruct t; reflexivity. Qed.

Lemma db_get_set_ne t t' x d : t ≠ t' → db_get t' (db_set t x d) = db_get t' d.
Proof. destruct t, t'; intros; congruence || reflexivity. Qed.

Lemma table_of_name_table_name t : table_of_name (table_name t) = Some t.
Proof. destruct t; reflexivity. Qed.

Lemma exec_update t cols vals id d :
  length vals = length cols →
  exec_sql (UPDATE_SET_WHERE_PK t cols) (vals ++ [VInt id]) d =
    match row_of t id d with
    | Some old =>
        let new := list_to_map (zip cols vals) ∪ old in
        if bool_decide (new = old) then no_change d
        else Ok (Cursor [] 1 None,
                 db_set t (TableData (<[id := new]> (rows (db_get t d)))
                                     (next_id (db_get t d))) d)
    | None => no_change d
    end.
Proof.
  intros Hlen. unfold exec_sql, row_of.
  rewrite bool_decide_eq_true_2 by (rewrite length_app; simpl; lia).
  rewrite last_snoc. simpl.
  rewrite <- Hlen, take_app_length. reflexivity.
Qed.

(** An UPDATE by key changes one row or none, and neither creates nor
    removes the row it addresses. *)
Lemma exec_update_outcome t cols vals id d cur d' :
  length vals = length cols →
  exec_sql (UPDATE_SET_WHERE_PK t cols) (vals ++ [VInt id]) d = Ok (cur, d') →
  (rowcount cur = 1 ∧ is_Some (row_of t id d) ∧ is_Some (row_of t id d')) ∨
  (rowcount cur = 0 ∧ d' = d).
Proof.
  intros Hlen. rewrite exec_update by done. unfold no_change.
  destruct (row_of t id d) as [old|] eqn:Hrow; simpl.
  - case_bool_decide; intros [= <- <-]; simpl; [by right|left].
    split; [done|]. split; [done|].
    unfold row_of. rewrite db_get_set_eq. simpl. rewrite lookup_insert_eq. done.
  - intros [= <- <-]. by right.
Qed.

Lemma exec_exists t id d :
  exec_sql (SELECT_1_WHERE (table_name t) (pk_col t)) [VInt id] d =
    let found := match row_of t id d with
                 | Some _ => [ ({["1" := VInt 1]} : row) ]
                 | None => []
                 end in
    Ok (Cursor found (Z.of_nat (length found)) None, d).
Proof.
  unfold exec_sql. rewrite table_of_name_table_name.
  rewrite bool_decide_eq_true_2 by done.
  unfold find_row, row_of. simpl.
  destruct (rows (db_get t d) !! id); reflexivity.
Qed.

Lemma exec_delete t id d :
  exec_sql (DELETE_WHERE_PK t) [VInt id] d =
    match row_of t id d with
    | Some _ =>
        Ok (Cursor [] 1 None,
            db_set t (TableData (delete id (rows (db_get t d))) (next_id (db_get t d))) d)
    | None => no_change d
    end.
Proof. reflexivity. Qed.

Lemma entity_params_length x :
  length (entity_params x) = length (table_cols (entity_table x)).
Proof. destruct x; reflexivity. Qed.

Lemma fault_at_nil c i : faults c = [] → fault_at c i = None.
Proof. unfold fault_at. intros ->. by rewrite lookup_nil. Qed.

(** A status that lacks a reference is refused by UpdateApplicationStatus
    and CreateApplicationStatus before anything else happens. *)
Lemma references_missing x c :
  references_set x = false →
  (∃ msg, UpdateX x c = (Raise (ValueError msg), c)) ∧
  (∃ msg, CreateX x c = (Raise (ValueError msg), c)).
Proof.
  destruct x as [v|v|v|v|v]; simpl; try discriminate.
  intros H. unfold UpdateApplicationStatus, CreateApplicationStatus.
  destruct (is_None (ApplicationStatus.status_id v)),
           (is_None (Application.application_id (ApplicationStatus.application v))),
           (contact_without_id v); simpl in *; try discriminate; eauto.
Qed.

(** ** Update *)

(** C1. For every entity X and every UpdateX(v) with v's identifier set:
    whenever the call returns, the UPDATE statement ran with some
    affected-row count rc; the result is true when rc > 0, true when
    rc = 0 and a row with that identifier exists, and false only when no
    row with that identifier exists.  When no database call fails (and v
    carries its references) the call does return, with true exactly when the
    row exists. *)
Theorem update_true_unless_not_found x id c :
  provider_connection c →
  entity_id x = VInt id →
  let t := entity_table x in
  (∀ b c', UpdateX x c = (Ok b, c') →
     ∃ cur d,
       exec_sql (UPDATE_SET_WHERE_PK t (table_cols t)) (entity_params x ++ [VInt id])
                (working c) = Ok (cur, d) ∧
       committed c' = d ∧
       (rowcount cur > 0 → b = true) ∧
       (rowcount cur = 0 → is_Some (row_of t id d) → b = true) ∧
       (b = false → row_of t id d = None ∧ row_of t id (working c) = None)) ∧
  (references_set x = true → faults c = [] →
     ∃ c', UpdateX x c = (Ok (bool_decide (is_Some (row_of t id (working c)))), c')).
Proof.
  intros Hauto Hid t.
  destruct (references_set x) eqn:Href; cycle 1.
  { destruct (references_missing x c Href) as [[msg ->] _].
    split; [intros b c' [=]|discriminate]. }
  rewrite UpdateX_form by (done || rewrite Hid; done).
  unfold update_form. rewrite Hid. fold t.
  cbv [mbind M_bind]. rewrite _execute_update_delete_closed by done.
  unfold write_closed_form, statement_outcome.
  split.
  - intros b c'.
    destruct (fault_at c 0); [destruct (fault_at c 1); intros [=]|].
    destruct (exec_sql _ _ (working c)) as [[cur d]|e] eqn:Hexec;
      [|destruct (fault_at c 1); intros [=]].
    destruct (fault_at c 1); [destruct (fault_at c 2); intros [=]|].
    pose proof (exec_update_outcome _ _ _ _ _ _ _ (entity_params_length x) Hexec) as Hout.
    case_bool_decide as Hrc.
    + intros [= <- <-]. exists cur, d. simpl.
      repeat split; try done; try lia; discriminate.
    + unfold _exists. cbv [mbind M_bind].
      rewrite _execute_closed by done.
      unfold read_closed_form, statement_outcome. simpl.
      destruct (fault_at _ 0); [intros [=]|].
      simpl. rewrite exec_exists. simpl.
      intros [= <- <-]. exists cur, d. simpl.
      destruct Hout as [(? & ? & ?)|[Hrc0 ->]]; [lia|].
      destruct (row_of t id (working c)) eqn:Hrow; simpl;
        repeat split; try done; try lia; intros; by destruct select (is_Some None).
  - intros _ Hnofault.
    rewrite !(fault_at_nil c) by done.
    rewrite exec_update by apply entity_params_length.
    unfold no_change.
    destruct (row_of t id (working c)) as [old|] eqn:Hrow; simpl.
    + case_bool_decide; simpl.
      * unfold _exists. cbv [mbind M_bind]. rewrite _execute_closed by done.
        unfold read_closed_form, statement_outcome, fault_at. simpl.
        rewrite Hnofault. simpl. rewrite exec_exists, Hrow. simpl.
        rewrite ?bool_decide_eq_true_2 by eauto. eexists; reflexivity.
      * rewrite ?bool_decide_eq_true_2 by eauto. eexists; reflexivity.
    + unfold _exists. cbv [mbind M_bind]. rewrite _execute_closed by done.
      unfold read_closed_form, statement_outcome, fault_at. simpl.
      rewrite Hnofault. simpl. rewrite exec_exists, Hrow. simpl.
      rewrite ?bool_decide_eq_false_2 by (intros [? [=]]). eexists; reflexivity.
Qed.

Lemma update_true_unless_not_found_witness :
  provider_connection (sample_connection []) ∧
  (∃ c', UpdateX (ACompany (Company.Build (VInt 2) (VStr "Beta") VNone VNone))
                 (sample_connection []) = (Ok true, c')) ∧
  (∃ c', UpdateX (ACompany (Company.Build (VInt 9) (VStr "Beta") VNone VNone))
                 (sample_connection []) = (Ok false, c')).
Proof.
  split; [split; reflexivity|]. split.
  - exact (proj2 (update_true_unless_not_found
                    (ACompany (Company.Build (VInt 2) (VStr "Beta") VNone VNone)) 2
                    (sample_connection []) (conj eq_refl eq_refl) eq_refl) eq_refl eq_refl).
  - exact (proj2 (update_true_unless_not_found
                    (ACompany (Company.Build (VInt 9) (VStr "Beta") VNone VNone)) 9
                    (sample_connection []) (conj eq_refl eq_refl) eq_refl) eq_refl eq_refl).
Defined.

(** ** Reads against their common shape *)

Lemma mapM_result_fmap {A B C} (f : B → C) (g : A → result B) (l : list A) :
  mapM (λ a, f <$> g a) l = fmap f <$> mapM g l.
Proof.
  induction l as [|a l IH]; [reflexivity|].
  simpl. rewrite IH.
  destruct (g a) as [b|e]; [|reflexivity].
  destruct (mapM g l) as [k|e]; reflexivity.
Qed.

Ltac destruct_mapper :=
  match goal with
  | |- context [_company_from_row ?x] => destruct (_company_from_row x)
  | |- context [_contact_from_row ?x] => destruct (_contact_from_row x)
  | |- context [_job_posting_from_row ?x] => destruct (_job_posting_from_row x)
  | |- context [_application_from_row ?x] => destruct (_application_from_row x)
  | |- context [_application_status_from_join_row ?x] =>
      destruct (_application_status_from_join_row x)
  end.

Lemma ReadXByID_form t id c : ReadXByID t id c = read_one_form t id c.
Proof.
  destruct t; unfold read_one_form; simpl;
    [unfold ReadCompanyByID, _read_one|unfold ReadContactByID, _read_one
    |unfold ReadJobPostingByID, _read_one|unfold ReadApplicationByID, _read_one
    |unfold ReadApplicationStatusByID];
    cbv [fmap M_fmap mbind M_bind mret M_ret lift raise result_fmap result_bind result_ret];
    match goal with |- context [_execute ?q ?p ?a ?b c] =>
      destruct (_execute q p a b c) as [[[|r|rs]|e] c'] end; try reflexivity;
    destruct_mapper; reflexivity.
Qed.

Lemma M_fmap_unfold {A B} (f : A → B) (m : M A) c :
  (f <$> m) c =
    match m c with
    | (Ok a, c') => (Ok (f a), c')
    | (Raise e, c') => (Raise e, c')
    end.
Proof. reflexivity. Qed.

Lemma M_bind_unfold {A B} (k : A → M B) (m : M A) c :
  (m ≫= k) c =
    match m c with
    | (Ok a, c') => k a c'
    | (Raise e, c') => (Raise e, c')
    end.
Proof. reflexivity. Qed.

Lemma row_mapper_mapM t rs :
  mapM (row_mapper t) rs =
    match t with
    | tbl_company => fmap ACompany <$> mapM _company_from_row rs
    | tbl_contact => fmap AContact <$> mapM _contact_from_row rs
    | tbl_job_posting => fmap AJobPosting <$> mapM _job_posting_from_row rs
    | tbl_application => fmap AApplication <$> mapM _application_from_row rs
    | tbl_application_status =>
        fmap AApplicationStatus <$> mapM _application_status_from_join_row rs
    end.
Proof. destruct t; apply mapM_result_fmap. Qed.

Lemma ReadAllX_form t c : ReadAllX t c = read_many_form t c.
Proof.
  unfold read_many_form.
  destruct t; unfold ReadAllX, select_all; cbn [pk_col table_cols];
    [unfold ReadAllCompanies, _read_many|unfold ReadAllContacts, _read_many
    |unfold ReadAllJobPostings, _read_many|unfold ReadAllApplications, _read_many
    |unfold ReadAllApplicationStatuses];
    rewrite M_fmap_unfold, !M_bind_unfold;
    match goal with |- context [_execute ?q ?p ?a ?b c] =>
      destruct (_execute q p a b c) as [[[|r|rs]|e] c'] end; try reflexivity;
    try (case_bool_decide; reflexivity);
    rewrite row_mapper_mapM; unfold lift;
    match goal with |- context [mapM ?m ?l] => destruct (mapM m l) end; reflexivity.
Qed.

Lemma exec_select_by_id t id d :
  exec_sql (select_by_id t) [VInt id] d =
    Ok (Cursor (rows_by_id t id d) (Z.of_nat (length (rows_by_id t id d))) None, d).
Proof.
  unfold rows_by_id, row_of.
  destruct t; unfold exec_sql, find_row; simpl;
    match goal with |- context [rows ?x !! id] => destruct (rows x !! id) end; reflexivity.
Qed.

Lemma exec_select_all t d :
  exec_sql (select_all t) [] d =
    Ok (Cursor (rows_all t d) (Z.of_nat (length (rows_all t d))) None, d).
Proof. destruct t; reflexivity. Qed.

(** A read on the provider's connection: its result is the environment's
    fault on the SELECT or the mapped rows; its effect on the connection is
    that of [_execute]. *)
Lemma read_one_closed t id c :
  provider_connection c →
  read_one_form t (VInt id) c =
    (match fault_at c 0 with
     | Some n => Raise (DatabaseError n)
     | None =>
         match rows_by_id t id (working c) with
         | [] => Ok None
         | r :: _ => Some <$> row_mapper t r
         end
     end,
     (read_closed_form (select_by_id t) [VInt id] true false c).2).
Proof.
  intros Hauto. unfold read_one_form. rewrite M_bind_unfold, _execute_closed by done.
  unfold read_closed_form, statement_outcome.
  destruct (fault_at c 0); [reflexivity|].
  rewrite exec_select_by_id. simpl. unfold cur_fetchone. simpl.
  destruct (rows_by_id t id (working c)) as [|r rs]; [reflexivity|].
  rewrite M_bind_unfold. unfold lift.
  destruct (row_mapper t r); reflexivity.
Qed.

Lemma read_many_closed t c :
  provider_connection c →
  read_many_form t c =
    (match fault_at c 0 with
     | Some n => Raise (DatabaseError n)
     | None => mapM (row_mapper t) (rows_all t (working c))
     end,
     (read_closed_form (select_all t) [] false true c).2).
Proof.
  intros Hauto. unfold read_many_form. rewrite M_bind_unfold, _execute_closed by done.
  unfold read_closed_form, statement_outcome.
  destruct (fault_at c 0); [reflexivity|].
  rewrite exec_select_all. reflexivity.
Qed.

Lemma rows_by_id_absent t id d : row_of t id d = None → rows_by_id t id d = [].
Proof. unfold rows_by_id. by intros ->. Qed.

(** ** Delete *)

(** C4. For every entity X, whenever DeleteX(id) returns, it returns true
    iff the row with that identifier existed, which is iff exactly one row
    was removed: the table loses that row and nothing else, every other
    table is untouched, and a ReadXByID(id) that follows and returns,
    returns absent.  When no database call fails both calls do return. *)
Theorem delete_true_iff_one_row_removed t id c :
  provider_connection c →
  let before := rows (db_get t (working c)) in
  (∀ b c1, DeleteX t (VInt id) c = (Ok b, c1) →
     let after := rows (db_get t (committed c1)) in
     after = delete id before ∧
     (∀ t', t' ≠ t → db_get t' (committed c1) = db_get t' (working c)) ∧
     (b = true ↔ is_Some (before !! id)) ∧
     (b = true ↔ size before = S (size after)) ∧
     (b = false → after = before) ∧
     (∀ r c2, ReadXByID t (VInt id) c1 = (Ok r, c2) → r = None)) ∧
  (faults c = [] →
     ∃ c1 c2, DeleteX t (VInt id) c = (Ok (bool_decide (is_Some (before !! id))), c1) ∧
              ReadXByID t (VInt id) c1 = (Ok None, c2)).
Proof.
  intros Hauto before.
  rewrite DeleteX_form. unfold delete_form.
  rewrite M_bind_unfold, _execute_update_delete_closed by done.
  unfold write_closed_form, statement_outcome.
  rewrite exec_delete. unfold no_change, row_of. fold before.
  split.
  - intros b c1.
    destruct (fault_at c 0); [destruct (fault_at c 1); intros [=]|].
    destruct (before !! id) as [old|] eqn:Hrow.
    + destruct (fault_at c 1); [destruct (fault_at c 2); intros [=]|].
      intros [= <- <-]. simpl. rewrite db_get_set_eq. simpl.
      repeat split; try done; try eauto.
      * intros t' Hne. by rewrite db_get_set_ne.
      * intros _. rewrite map_size_delete, Hrow.
        pose proof (map_size_ne_0_lookup_2 before id (mk_is_Some _ _ Hrow)) as Hne.
        symmetry. by apply Nat.succ_pred.
      * intros r c2. rewrite ReadXByID_form, read_one_closed by done.
        rewrite rows_by_id_absent; cycle 1.
        { unfold row_of. simpl. rewrite db_get_set_eq. simpl. apply lookup_delete_eq. }
        destruct (fault_at _ 0); intros [=]; done.
    + destruct (fault_at c 1); [destruct (fault_at c 2); intros [=]|].
      intros [= <- <-]. simpl.
      repeat split; try done.
      * by rewrite delete_id.
      * fold before. lia.
      * intros r c2. rewrite ReadXByID_form, read_one_closed by done.
        rewrite rows_by_id_absent by done.
        destruct (fault_at _ 0); intros [=]; done.
  - intros Hnofault. rewrite !(fault_at_nil c) by done.
    destruct (before !! id) as [old|] eqn:Hrow; simpl;
      do 2 eexists; (split; [reflexivity|]);
      rewrite ReadXByID_form, read_one_closed by done;
      unfold fault_at; simpl; rewrite Hnofault; simpl.
    + rewrite rows_by_id_absent; [reflexivity|].
      unfold row_of. simpl. rewrite db_get_set_eq. simpl. apply lookup_delete_eq.
    + rewrite rows_by_id_absent by done. reflexivity.
Qed.

Lemma delete_true_iff_one_row_removed_witness :
  provider_connection (sample_connection []) ∧
  ∃ c1 c2,
    DeleteX tbl_company (VInt 2) (sample_connection []) = (Ok true, c1) ∧
    ReadXByID tbl_company (VInt 2) c1 = (Ok None, c2).
Proof.
  split; [split; reflexivity|].
  exact (proj2 (delete_true_iff_one_row_removed tbl_company 2 (sample_connection [])
                  (conj eq_refl eq_refl)) eq_refl).
Defined.

(** ** Create *)

Lemma exec_insert t cols ps d :
  length ps = length cols →
  exec_sql (INSERT_INTO t cols) ps d =
    let k := next_id (db_get t d) in
    match row_of t k d with
    | Some _ => Raise (DatabaseError ER_DUP_ENTRY)
    | None =>
        Ok (Cursor [] 1 (Some k),
            db_set t (TableData (<[k := list_to_map (zip cols ps)]> (rows (db_get t d)))
                                (k + 1)) d)
    end.
Proof.
  intros Hlen. unfold exec_sql. rewrite bool_decide_eq_true_2 by done. reflexivity.
Qed.

Lemma with_id_entity_id x : with_id x (entity_id x) = x.
Proof. destruct x as [[]|[]|[]|[]|[]]; reflexivity. Qed.

Lemma with_id_with_id x i j : with_id (with_id x i) j = with_id x j.
Proof. destruct x as [[]|[]|[]|[]|[]]; reflexivity. Qed.

Lemma entity_id_with_id x i : entity_id (with_id x i) = i.
Proof. destruct x; reflexivity. Qed.

Lemma entity_params_with_id x i : entity_params (with_id x i) = entity_params x.
Proof. destruct x; reflexivity. Qed.

(** C8. For every entity X, whenever CreateX(v) returns, the value returned
    is v with its identifier set to the row id the INSERT assigned (the
    table's next auto-increment value, under which the committed table now
    holds v's fields); every other field is that of v.  When no database
    call fails, v carries its references and that id is free, the call does
    return. *)
Theorem create_returns_input_with_new_id x c :
  provider_connection c →
  let t := entity_table x in
  let k := next_id (db_get t (working c)) in
  (∀ x' c', CreateX x c = (Ok x', c') →
     x' = with_id x (VInt k) ∧
     entity_id x' = VInt k ∧
     with_id x' (entity_id x) = x ∧
     entity_params x' = entity_params x ∧
     row_of t k (working c) = None ∧
     row_of t k (committed c') = Some (list_to_map (zip (table_cols t) (entity_params x)))) ∧
  (references_set x = true → faults c = [] → row_of t k (working c) = None →
     ∃ c', CreateX x c = (Ok (with_id x (VInt k)), c')).
Proof.
  intros Hauto t k.
  destruct (references_set x) eqn:Href; cycle 1.
  { destruct (references_missing x c Href) as [_ [msg ->]].
    split; [intros x' c' [=]|discriminate]. }
  rewrite CreateX_form by done. unfold create_form.
  rewrite M_bind_unfold, _execute_write_closed by done.
  unfold write_closed_form, statement_outcome. fold t.
  rewrite exec_insert by apply entity_params_length. fold t. simpl. fold k.
  split.
  - intros x' c'.
    destruct (fault_at c 0); [destruct (fault_at c 1); intros [=]|].
    destruct (row_of t k (working c)) eqn:Hrow;
      [destruct (fault_at c 1); intros [=]|].
    destruct (fault_at c 1); [destruct (fault_at c 2); intros [=]|].
    intros [= <- <-]. simpl.
    rewrite entity_id_with_id, with_id_with_id, with_id_entity_id, entity_params_with_id.
    repeat split; try done.
    unfold row_of. rewrite db_get_set_eq. simpl. apply lookup_insert_eq.
  - intros _ Hnofault Hfree. rewrite !(fault_at_nil c), Hfree by done.
    eexists; reflexivity.
Qed.

Lemma create_returns_input_with_new_id_witness :
  provider_connection (sample_connection []) ∧
  ∃ c', CreateX (ACompany (Company.Build VNone (VStr "Acme") (VStr "https://acme.test")
                                         (VStr "Remote")))
                (sample_connection []) =
        (Ok (ACompany (Company.Build (VInt 3) (VStr "Acme") (VStr "https://acme.test")
                                     (VStr "Remote"))), c').
Proof.
  split; [split; reflexivity|].
  exact (proj2 (create_returns_input_with_new_id
                  (ACompany (Company.Build VNone (VStr "Acme") (VStr "https://acme.test")
                                           (VStr "Remote")))
                  (sample_connection []) (conj eq_refl eq_refl)) eq_refl eq_refl eq_refl).
Defined.

(** ** Reads end their transaction *)

Lemma read_closed_form_contract q ps f1 f2 c :
  read_contract q ps c (read_closed_form q ps f1 f2 c).
Proof.
  unfold read_contract, read_closed_form. simpl.
  split; [reflexivity|]. split; [|split; [reflexivity|]].
  - intros ->. done.
  - intros e ->. reflexivity.
Qed.

(** A computation that runs [_execute] and then only maps what was fetched
    keeps the contract. *)
Lemma read_contract_mapped {A B} q ps c (out : result A * connection)
    (k : A → result B) :
  read_contract q ps c out →
  read_contract q ps c (out.1 ≫= k, out.2).
Proof.
  unfold read_contract. simpl. intros (Hlog & Hrb & Hcm & Herr).
  repeat split; try done; try (by apply Hrb).
  intros e He. by rewrite (Herr e He).
Qed.

Lemma read_one_form_mapped t id c :
  read_one_form t id c =
    let out := _execute (select_by_id t) [id] true false c in
    (out.1 ≫= (λ f, match f with
                     | FetchedNone => Ok None
                     | FetchedRow r => Some <$> row_mapper t r
                     | FetchedRows _ => Raise TypeError
                     end), out.2).
Proof.
  unfold read_one_form. rewrite M_bind_unfold.
  destruct (_execute _ _ _ _ c) as [[[|r|rs]|e] c']; try reflexivity.
  simpl. rewrite M_bind_unfold. unfold lift. destruct (row_mapper t r); reflexivity.
Qed.

Lemma read_many_form_mapped t c :
  read_many_form t c =
    let out := _execute (select_all t) [] false true c in
    (out.1 ≫= (λ f, match f with
                     | FetchedNone => Ok []
                     | FetchedRow r => if bool_decide (r = ∅) then Ok [] else Raise TypeError
                     | FetchedRows rs => mapM (row_mapper t) rs
                     end), out.2).
Proof.
  unfold read_many_form. rewrite M_bind_unfold.
  destruct (_execute _ _ _ _ c) as [[[|r|rs]|e] c']; try reflexivity.
  simpl. case_bool_decide; reflexivity.
Qed.

Lemma _execute_session_closed q ps f1 f2 c :
  autocommit c = false → local_calls_succeed c →
  _execute q ps f1 f2 c =
    ((read_closed_form q ps f1 f2 c).1,
     with_session_faults (drop 3 (session_faults c)) (read_closed_form q ps f1 f2 c).2).
Proof.
  destruct c as [cm wk it ac fs lg ss]. unfold local_calls_succeed, session_fault_at.
  simpl. intros -> (H0 & H1 & H2).
  destruct ss as [|[?|] [|[?|] [|[?|] ss]]]; try discriminate;
    unfold _execute, read_closed_form, with_session_faults, statement_outcome, fault_at, fetch;
    destruct fs as [|[n|] [|[m|] fs]]; run_monad; simpl;
    try (destruct (exec_sql q ps wk) as [[cur d]|e]; simpl);
    destruct f1, f2; simpl; rewrite ?orb_true_r; norm_log; reflexivity.
Qed.

Lemma _execute_cursor_refused q ps f1 f2 c n :
  session_fault_at c 0 = Some n →
  cursor_refused n c (_execute q ps f1 f2 c).
Proof.
  destruct c as [cm wk it ac fs lg ss]. unfold session_fault_at, cursor_refused.
  destruct ss as [|[?|] ss]; simpl; try discriminate. intros [= ->].
  unfold _execute. run_monad. simpl. done.
Qed.

Lemma cursor_refused_mapped {A B} n c (out : result A * connection) (k : A → result B) :
  cursor_refused n c out → cursor_refused n c (out.1 ≫= k, out.2).
Proof. unfold cursor_refused. simpl. intros (-> & ?). done. Qed.

Lemma read_contract_session {A} q ps c (out : result A * connection) ss :
  read_contract q ps c out →
  read_contract q ps c (out.1, with_session_faults ss out.2).
Proof. unfold read_contract. simpl. done. Qed.

(** C2. Every read, the helper [_execute] and with it ReadXByID and
    ReadAllX for each of the five entities (the ApplicationStatus join reads
    among them), on every exit path on which [cursor()], [cur.close()] and
    the read of [autocommit] do not raise: rollback is its last database
    call, after success and after failure of the SELECT; a rollback that
    succeeds leaves no transaction open; when the SELECT fails its error is
    the one the read raises, also when the rollback fails in turn: that
    failure is swallowed.  When [cursor()] itself raises, its error is the
    read's, no statement is run and no transaction begun. *)
Theorem reads_roll_back_when_cleanup_succeeds c :
  autocommit c = false →
  (local_calls_succeed c →
     (∀ q ps fetchone fetchall,
        read_contract q ps c (_execute q ps fetchone fetchall c)) ∧
     (∀ t id, read_contract (select_by_id t) [id] c (ReadXByID t id c)) ∧
     (∀ t, read_contract (select_all t) [] c (ReadAllX t c)) ∧
     (∀ t id n m, fault_at c 0 = Some n → fault_at c 1 = Some m →
        (ReadXByID t id c).1 = Raise (DatabaseError n) ∧
        (ReadAllX t c).1 = Raise (DatabaseError n))) ∧
  (∀ n, session_fault_at c 0 = Some n →
     (∀ t id, cursor_refused n c (ReadXByID t id c)) ∧
     (∀ t, cursor_refused n c (ReadAllX t c))).
Proof.
  intros Hauto. split.
  - intros Hlocal.
    assert (Hexec : ∀ q ps f1 f2, read_contract q ps c (_execute q ps f1 f2 c)).
    { intros. rewrite _execute_session_closed by done.
      apply read_contract_session, read_closed_form_contract. }
    assert (Hone : ∀ t id, read_contract (select_by_id t) [id] c (ReadXByID t id c)).
    { intros. rewrite ReadXByID_form, read_one_form_mapped. simpl.
      apply read_contract_mapped, Hexec. }
    assert (Hmany : ∀ t, read_contract (select_all t) [] c (ReadAllX t c)).
    { intros. rewrite ReadAllX_form, read_many_form_mapped. simpl.
      apply read_contract_mapped, Hexec. }
    split; [done|]. split; [done|]. split; [done|].
    intros t id n m Hn _. split.
    + destruct (Hone t id) as (_ & _ & _ & Herr). apply Herr.
      unfold statement_outcome. by rewrite Hn.
    + destruct (Hmany t) as (_ & _ & _ & Herr). apply Herr.
      unfold statement_outcome. by rewrite Hn.
  - intros n Hn. split.
    + intros t id. rewrite ReadXByID_form, read_one_form_mapped. simpl.
      apply cursor_refused_mapped, _execute_cursor_refused, Hn.
    + intros t. rewrite ReadAllX_form, read_many_form_mapped. simpl.
      apply cursor_refused_mapped, _execute_cursor_refused, Hn.
Qed.

Lemma reads_roll_back_when_cleanup_succeeds_witness :
  autocommit failing_connection = false ∧ local_calls_succeed failing_connection ∧
  (ReadXByID tbl_company (VInt 1) failing_connection).1 = Raise (DatabaseError 2013) ∧
  (ReadAllX tbl_application_status failing_connection).1 = Raise (DatabaseError 2013).
Proof.
  split; [reflexivity|]. split; [repeat split; reflexivity|].
  exact (proj2 (proj2 (proj2 (proj1 (reads_roll_back_when_cleanup_succeeds
                                       failing_connection eq_refl)
                                    (conj eq_refl (conj eq_refl eq_refl)))))
               tbl_company (VInt 1) 2013 2055 eq_refl eq_refl).
Defined.

(** C2 as the specification words it fails on two exit paths.  When the
    session is lost during a read, the SELECT fails with error 2013, closing
    the cursor succeeds, and the read of [autocommit] in the [finally] block
    raises error 2006 before the guarded rollback is reached: no rollback is
    called, the transaction the failed statement began stays open, and error
    2006 reaches the caller in place of error 2013.  And when the rollback
    itself fails, its error is swallowed as intended, the read returns its
    rows, and the transaction stays open. *)
Lemma reads_can_leave_transaction_open :
  (autocommit lost_connection = false ∧
   statement_outcome (select_by_id tbl_company) [VInt 1] lost_connection
     = Raise (DatabaseError 2013) ∧
   (ReadXByID tbl_company (VInt 1) lost_connection).1 = Raise (DatabaseError 2006) ∧
   log (ReadXByID tbl_company (VInt 1) lost_connection).2 =
     [EvCursor; EvExecute (select_by_id tbl_company) [VInt 1] false; EvCursorClose] ∧
   in_transaction (ReadXByID tbl_company (VInt 1) lost_connection).2 = true ∧
   ¬ read_claim (select_by_id tbl_company) [VInt 1] lost_connection
                (ReadXByID tbl_company (VInt 1) lost_connection)) ∧
  (provider_connection rollback_failing_connection ∧
   is_Ok (ReadAllX tbl_company rollback_failing_connection).1 = true ∧
   last (log (ReadAllX tbl_company rollback_failing_connection).2)
     = Some (EvRollback false) ∧
   in_transaction (ReadAllX tbl_company rollback_failing_connection).2 = true ∧
   ¬ read_claim (select_all tbl_company) [] rollback_failing_connection
                (ReadAllX tbl_company rollback_failing_connection)).
Proof.
  assert (H1 : in_transaction (ReadXByID tbl_company (VInt 1) lost_connection).2 = true)
    by (vm_compute; reflexivity).
  assert (H2 : in_transaction (ReadAllX tbl_company rollback_failing_connection).2 = true)
    by (vm_compute; reflexivity).
  split.
  - repeat split; try (vm_compute; reflexivity).
    intros (_ & Hopen & _). rewrite H1 in Hopen. discriminate.
  - repeat split; try (vm_compute; reflexivity).
    intros (_ & Hopen & _). rewrite H2 in Hopen. discriminate.
Qed.

(** A read whose SELECT fails with error 2013 and whose rollback then fails
    with 2055: the calls made, and the error that reaches the caller. *)
Example read_failure_trace :
  let out := ReadCompanyByID (VInt 1) (sample_connection [Some 2013; Some 2055]) in
  out.1 = Raise (DatabaseError 2013) ∧
  log out.2 =
    [EvCursor;
     EvExecute (SELECT_WHERE_PK ["company_id"; "name"; "website"; "company_location"]
                                tbl_company) [VInt 1] false;
     EvCursorClose; EvRollback false].
Proof. split; vm_compute; reflexivity. Qed.

(** ** Writes commit or roll back *)






Lemma exec_select_1_read_only tname col ps d cur d' :
  exec_sql (SELECT_1_WHERE tname col) ps d = Ok (cur, d') → d' = d.
Proof.
  unfold exec_sql. intros H. repeat (case_match; simplify_eq); done.
Qed.






(** ** UpdateApplicationStatus *)

(** Past its validation an update fails only with an error of the
    database. *)
Lemma update_form_error x c e :
  provider_connection c →
  (update_form x c).1 = Raise e → ∃ n, e = DatabaseError n.
Proof.
  intros Hauto. unfold update_form. rewrite M_bind_unfold.
  rewrite _execute_update_delete_closed by done. unfold write_closed_form.
  destruct (statement_outcome _ _ c) as [[cur d]|e0] eqn:Hout.
  - destruct (fault_at c 1); [destruct (fault_at c 2); simpl; intros [= <-]; eauto|].
    case_bool_decide; [intros [=]|].
    unfold _exists. rewrite M_bind_unfold, _execute_closed by done.
    unfold read_closed_form. simpl.
    set (c1 := Connection _ _ _ _ _ _ _).
    destruct (statement_outcome _ _ c1) as [[cur1 d1]|e1] eqn:Hsel; simpl; [intros [=]|].
    intros [= <-]. by eapply statement_outcome_error.
  - destruct (fault_at c 1); simpl; intros [= <-];
      [eauto|by eapply statement_outcome_error].
Qed.

(** C10. UpdateApplicationStatus asks more than the other four updates.
    With the status identifier set it still raises a ValueError, before any
    database call, when the embedded application has no identifier, and
    when a contact is present without identifier.  The other four updates
    have no such precondition: with the identifier set they never raise a
    ValueError, and neither does UpdateApplicationStatus once both
    references are set. *)
Theorem UpdateApplicationStatus_stricter_preconditions :
  (∀ st c,
     ApplicationStatus.status_id st ≠ VNone →
     Application.application_id (ApplicationStatus.application st) = VNone →
     UpdateApplicationStatus st c =
       (Raise (ValueError
          "UpdateApplicationStatus requires status.application.application_id to be set."),
        c)) ∧
  (∀ st ct c,
     ApplicationStatus.status_id st ≠ VNone →
     Application.application_id (ApplicationStatus.application st) ≠ VNone →
     ApplicationStatus.contact st = Some ct → Contact.contact_id ct = VNone →
     UpdateApplicationStatus st c =
       (Raise (ValueError
          "UpdateApplicationStatus: status.contact.contact_id must be set (or contact=None)."),
        c)) ∧
  (∀ x, entity_table x ≠ tbl_application_status → references_set x = true) ∧
  (∀ x c msg,
     provider_connection c → entity_id x ≠ VNone → references_set x = true →
     (UpdateX x c).1 ≠ Raise (ValueError msg)).
Proof.
  split; [|split; [|split]].
  - intros st c Hid Happ. unfold UpdateApplicationStatus.
    destruct (ApplicationStatus.status_id st); try done; rewrite Happ; reflexivity.
  - intros st ct c Hid Happ Hct Hctid. unfold UpdateApplicationStatus, contact_without_id.
    rewrite Hct, Hctid.
    destruct (ApplicationStatus.status_id st); try done;
      destruct (Application.application_id (ApplicationStatus.application st));
      try done; reflexivity.
  - intros [v|v|v|v|v]; simpl; done.
  - intros x c msg Hauto Hid Href. rewrite UpdateX_form by done.
    intros Hraise. by destruct (update_form_error x c _ Hauto Hraise).
Qed.

Lemma UpdateApplicationStatus_stricter_preconditions_witness :
  UpdateApplicationStatus
    (ApplicationStatus.Build
       (Company.Build (VInt 1) (VStr "Acme") VNone VNone)
       None
       (JobPosting.Build (VInt 1) (VInt 1) (VStr "Engineer") VNone VNone VNone VNone VNone)
       (Application.Build VNone (VInt 1) VNone VNone VNone VNone)
       (VInt 1) OFFER)
    (sample_connection []) =
  (Raise (ValueError
     "UpdateApplicationStatus requires status.application.application_id to be set."),
   sample_connection []) ∧
  (UpdateX (AApplication (Application.Build (VInt 1) (VInt 1) VNone VNone VNone VNone))
           (sample_connection [Some 1205])).1 ≠ Raise (ValueError "").
Proof.
  split.
  - apply (proj1 UpdateApplicationStatus_stricter_preconditions); [discriminate|reflexivity].
  - apply (proj2 (proj2 (proj2 UpdateApplicationStatus_stricter_preconditions)));
      [split; reflexivity|discriminate|reflexivity].
Defined.

(** ** The join and its reconstruction *)

Lemma get_full_row_pk t k r : get (full_row t k r) (pk_col t) = VInt k.
Proof. unfold get, full_row. by rewrite lookup_insert_eq. Qed.

Lemma get_full_row_other t k r col :
  col ≠ pk_col t → get (full_row t k r) col = get r col.
Proof. intros. unfold get, full_row. by rewrite lookup_insert_ne. Qed.

(** The mapper on a row of the join: only the status string can make it
    fail. *)
Lemma mapper_join_row s a j c ct :
  _application_status_from_join_row (join_row s a j c ct) =
    m ← StatusType_of (get s "status"); Ok (status_of_rows s a j c ct m).
Proof.
  unfold join_row, alias, status_of_rows, company_of_row, contact_of_row,
    job_posting_of_row, application_of_row,
    status_join_cols, application_join_cols, job_join_cols, company_join_cols,
    contact_join_cols.
  cbn [fmap list_fmap app].
  repeat match goal with |- context [get ?r ?k] => generalize (get r k); intro end.
  unfold _application_status_from_join_row.
  generalize StatusType_of; intros conv.
  vm_compute.
  match goal with |- context [match ?v with VNone => _ | _ => _ end] => destruct v end;
    reflexivity.
Qed.

Lemma status_join_inv d sid s r :
  status_join d sid s = Some r →
  ∃ a_id a j_id j c_id c,
    get s "application_id" = VInt a_id ∧ row_of tbl_application a_id d = Some a ∧
    get a "job_id" = VInt j_id ∧ row_of tbl_job_posting j_id d = Some j ∧
    get j "company_id" = VInt c_id ∧ row_of tbl_company c_id d = Some c ∧
    r = join_row (full_row tbl_application_status sid s)
                 (full_row tbl_application a_id a)
                 (full_row tbl_job_posting j_id j)
                 (full_row tbl_company c_id c)
                 (left_join_contact d s).
Proof.
  unfold status_join, row_of. intros H.
  destruct (get s "application_id") as [|a_id| | |] eqn:Hs; simpl in H; try done.
  destruct (rows (db_application d) !! a_id) as [a|] eqn:Ha; simpl in H; [|done].
  destruct (get a "job_id") as [|j_id| | |] eqn:Hj; simpl in H; try done.
  destruct (rows (db_job_posting d) !! j_id) as [j|] eqn:Hjr; simpl in H; [|done].
  destruct (get j "company_id") as [|c_id| | |] eqn:Hc; simpl in H; try done.
  destruct (rows (db_company d) !! c_id) as [c|] eqn:Hcr; simpl in H; [|done].
  injection H as <-. exists a_id, a, j_id, j, c_id, c. done.
Qed.

(** What the mapper makes of a joined status row. *)
Lemma status_join_mapped d sid s r st :
  row_of tbl_application_status sid d = Some s →
  status_join d sid s = Some r →
  _application_status_from_join_row r = Ok st →
  chain_consistent d st ∧
  ApplicationStatus.contact st =
    (if is_None (get (left_join_contact d s) "contact_id") then None
     else Some (contact_of_row (left_join_contact d s))).
Proof.
  intros Hs Hjoin Hmap.
  destruct (status_join_inv _ _ _ _ Hjoin)
    as (a_id & a & j_id & j & c_id & c & Hsa & Ha & Haj & Hj & Hjc & Hc & ->).
  rewrite mapper_join_row in Hmap.
  destruct (StatusType_of _) as [m|e]; [|done]. injection Hmap as <-.
  split; [|reflexivity].
  exists sid, s, a_id, a, j_id, j, c_id, c. simpl.
  repeat split; try done.
  apply (get_full_row_pk tbl_application_status).
Qed.

Lemma left_join_contact_null d s :
  get s "contact_id" = VNone → get (left_join_contact d s) "contact_id" = VNone.
Proof. unfold left_join_contact. by intros ->. Qed.

Lemma left_join_contact_found d s k ct :
  get s "contact_id" = VInt k → row_of tbl_contact k d = Some ct →
  left_join_contact d s = full_row tbl_contact k ct.
Proof.
  unfold left_join_contact, row_of. intros -> Hct. simpl in *. by rewrite Hct.
Qed.

Lemma ReadApplicationStatusByID_inv sid c st c' :
  provider_connection c →
  ReadApplicationStatusByID (VInt sid) c = (Ok (Some st), c') →
  ∃ s r, row_of tbl_application_status sid (working c) = Some s ∧
         status_join (working c) sid s = Some r ∧
         _application_status_from_join_row r = Ok st.
Proof.
  intros Hauto Hread.
  assert (ReadXByID tbl_application_status (VInt sid) c
          = (Ok (Some (AApplicationStatus st)), c')) as Hx.
  { unfold ReadXByID. rewrite M_fmap_unfold, Hread. reflexivity. }
  rewrite ReadXByID_form, read_one_closed in Hx by done.
  destruct (fault_at c 0); [done|].
  unfold rows_by_id in Hx.
  destruct (row_of tbl_application_status sid (working c)) as [s|] eqn:Hs; [|done].
  destruct (status_join (working c) sid s) as [r|] eqn:Hjoin; [|done].
  exists s, r. split; [done|]. split; [done|].
  simpl in Hx. destruct (_application_status_from_join_row r); [|done].
  cbv [fmap result_fmap mbind result_bind mret result_ret] in Hx. by simplify_eq.
Qed.

(** The contact branch of the mapper, on any row. *)
Lemma mapper_contact r st :
  _application_status_from_join_row r = Ok st →
  ApplicationStatus.contact st =
    (if is_None (get r "ct_contact_id") then None
     else Some (Contact.Build (get r "ct_contact_id") (get r "ct_company_id")
                  (get r "ct_full_name") (get r "ct_title") (get r "ct_email")
                  (get r "ct_phone") (get r "ct_linkedin"))).
Proof.
  unfold _application_status_from_join_row, getitem.
  cbv [mbind result_bind mret result_ret]. intros H.
  repeat match type of H with
         | context [match r !! ?k with _ => _ end] =>
             let E := fresh "E" in
             let G := fresh "G" in
             destruct (r !! k) as [?|] eqn:E; try discriminate H;
             try (eassert (get r k = _) as G by (unfold get; rewrite E; reflexivity);
                  rewrite ?G in H |- *)
         end.
  all: repeat match type of H with
         | context [if ?b then _ else _] => destruct b eqn:?; try discriminate H
         | context [StatusType_of ?v] => destruct (StatusType_of v); try discriminate H
         end.
  all: injection H as <-; simpl.
  all: repeat match goal with G : get _ _ = _ |- _ => rewrite ?G; clear G end.
  all: simpl in *; try reflexivity; try congruence.
  all: by destruct select value.
Qed.

Lemma mapM_Ok_Forall2 {A B} (f : A → result B) l l' :
  mapM f l = Ok l' → Forall2 (λ a b, f a = Ok b) l l'.
Proof.
  revert l'. induction l as [|a l IH]; intros l'; simpl.
  - intros [= <-]. constructor.
  - destruct (f a) as [b|e] eqn:Hfa; [|done]. simpl.
    destruct (mapM f l) as [k|e]; [|done]. simpl.
    intros [= <-]. constructor; [done|]. by apply IH.
Qed.

(** C6. When the contact-identifier column of a join row is null the
    reconstructed status has no contact, and no Contact object is built;
    when it is not null the status carries the Contact made of the row's
    contact columns.  Through ReadApplicationStatusByID: a status row whose
    contact_id is NULL is read back without contact, one whose contact_id
    names a contact row is read back with that contact; and the read does
    return whenever the SELECT does not fail, the joins find the row's
    application, job and company, and its status is one of the ten. *)
Theorem contact_absent_iff_contact_id_null :
  (∀ r st, _application_status_from_join_row r = Ok st →
     (get r "ct_contact_id" = VNone → ApplicationStatus.contact st = None) ∧
     (get r "ct_contact_id" ≠ VNone →
        ApplicationStatus.contact st =
          Some (Contact.Build (get r "ct_contact_id") (get r "ct_company_id")
                  (get r "ct_full_name") (get r "ct_title") (get r "ct_email")
                  (get r "ct_phone") (get r "ct_linkedin")))) ∧
  (∀ c sid s st c',
     provider_connection c →
     row_of tbl_application_status sid (working c) = Some s →
     ReadApplicationStatusByID (VInt sid) c = (Ok (Some st), c') →
     (get s "contact_id" = VNone → ApplicationStatus.contact st = None) ∧
     (∀ k ct, get s "contact_id" = VInt k →
              row_of tbl_contact k (working c) = Some ct →
              ApplicationStatus.contact st
                = Some (contact_of_row (full_row tbl_contact k ct)))) ∧
  (∀ c sid s r m,
     provider_connection c → fault_at c 0 = None →
     row_of tbl_application_status sid (working c) = Some s →
     status_join (working c) sid s = Some r →
     StatusType_of (get s "status") = Ok m →
     ∃ st c', ReadApplicationStatusByID (VInt sid) c = (Ok (Some st), c')).
Proof.
  split; [|split].
  - intros r st Hmap. rewrite (mapper_contact r st Hmap).
    split; [by intros ->|].
    intros Hnn. by destruct (get r "ct_contact_id").
  - intros c sid s st c' Hauto Hs Hread.
    destruct (ReadApplicationStatusByID_inv _ _ _ _ Hauto Hread) as (s' & r & Hs' & Hjoin & Hmap).
    rewrite Hs in Hs'. injection Hs' as <-.
    destruct (status_join_mapped _ _ _ _ _ Hs Hjoin Hmap) as [_ ->].
    split.
    + intros Hnull. by rewrite left_join_contact_null.
    + intros k ct Hk Hct. rewrite (left_join_contact_found _ _ _ _ Hk Hct).
      by rewrite (get_full_row_pk tbl_contact).
  - intros c sid s r m Hauto Hfault Hs Hjoin Hm.
    unfold ReadApplicationStatusByID. rewrite M_bind_unfold, _execute_closed by done.
    unfold read_closed_form, statement_outcome. rewrite Hfault.
    change STATUS_JOIN_WHERE_ID with (select_by_id tbl_application_status).
    rewrite exec_select_by_id. unfold rows_by_id. rewrite Hs, Hjoin. simpl.
    destruct (status_join_inv _ _ _ _ Hjoin)
      as (a_id & a & j_id & j & c_id & co & _ & _ & _ & _ & _ & _ & ->).
    rewrite M_bind_unfold. unfold lift. rewrite mapper_join_row.
    rewrite (get_full_row_other tbl_application_status) by done.
    rewrite Hm. simpl. eauto.
Qed.

Lemma contact_absent_iff_contact_id_null_witness :
  provider_connection (sample_connection []) ∧
  (∃ st c', ReadApplicationStatusByID (VInt 2) (sample_connection []) = (Ok (Some st), c') ∧
            ApplicationStatus.contact st = None) ∧
  (∃ st c', ReadApplicationStatusByID (VInt 1) (sample_connection []) = (Ok (Some st), c') ∧
            ApplicationStatus.contact st =
              Some (Contact.Build (VInt 1) (VInt 1) (VStr "Ann Lee") VNone
                                  (VStr "ann@acme.test") VNone VNone)).
Proof.
  split; [split; reflexivity|]. split.
  - assert (∃ st c', ReadApplicationStatusByID (VInt 2) (sample_connection [])
                     = (Ok (Some st), c')) as (st & c' & Hread)
      by (eexists _, _; vm_compute; reflexivity).
    assert (∃ s, row_of tbl_application_status 2 (working (sample_connection [])) = Some s ∧
                 get s "contact_id" = VNone) as (s & Hs & Hnull)
      by (eexists; split; vm_compute; reflexivity).
    exists st, c'. split; [exact Hread|].
    exact (proj1 (proj1 (proj2 contact_absent_iff_contact_id_null)
                        (sample_connection []) 2 s st c' (conj eq_refl eq_refl) Hs Hread) Hnull).
  - assert (∃ st c', ReadApplicationStatusByID (VInt 1) (sample_connection [])
                     = (Ok (Some st), c')) as (st & c' & Hread)
      by (eexists _, _; vm_compute; reflexivity).
    assert (∃ s ct, row_of tbl_application_status 1 (working (sample_connection [])) = Some s ∧
                    get s "contact_id" = VInt 1 ∧
                    row_of tbl_contact 1 (working (sample_connection [])) = Some ct ∧
                    contact_of_row (full_row tbl_contact 1 ct)
                      = Contact.Build (VInt 1) (VInt 1) (VStr "Ann Lee") VNone
                                      (VStr "ann@acme.test") VNone VNone)
      as (s & ct & Hs & Hk & Hct & Hobj)
      by (eexists _, _; repeat split; vm_compute; reflexivity).
    exists st, c'. split; [exact Hread|].
    rewrite <- Hobj.
    exact (proj2 (proj1 (proj2 contact_absent_iff_contact_id_null)
                        (sample_connection []) 1 s st c' (conj eq_refl eq_refl) Hs Hread) 1 ct Hk Hct).
Defined.

(** C5. Every ApplicationStatus that ReadApplicationStatusByID or
    ReadAllApplicationStatuses returns is chain-consistent in the database
    read: its application is the row the status row references, its job
    the row that application references, its company the row that job
    references; so the job's job_id is the application's job_id and the
    company's company_id is the job's company_id. *)
Theorem status_objects_chain_consistent c :
  provider_connection c →
  let consistent st :=
    chain_consistent (working c) st ∧
    JobPosting.job_id (ApplicationStatus.job st)
      = Application.job_id (ApplicationStatus.application st) ∧
    Company.company_id (ApplicationStatus.company st)
      = JobPosting.company_id (ApplicationStatus.job st) in
  (∀ sid st c', ReadApplicationStatusByID (VInt sid) c = (Ok (Some st), c') →
                ApplicationStatus.status_id st = VInt sid ∧ consistent st) ∧
  (∀ sts c', ReadAllApplicationStatuses c = (Ok sts, c') →
             ∀ st, st ∈ sts → consistent st).
Proof.
  intros Hauto consistent.
  assert (Hchain : ∀ st, chain_consistent (working c) st → consistent st).
  { intros st Hst. split; [done|].
    destruct Hst as (sid & s & a_id & a & j_id & j & c_id & co & _ & _ & _ & _ & -> &
                     Haj & _ & -> & Hjc & _ & ->). simpl.
    rewrite (get_full_row_pk tbl_job_posting), (get_full_row_pk tbl_company).
    rewrite (get_full_row_other tbl_application), (get_full_row_other tbl_job_posting)
      by done.
    by rewrite Haj, Hjc. }
  split.
  - intros sid st c' Hread.
    destruct (ReadApplicationStatusByID_inv _ _ _ _ Hauto Hread) as (s & r & Hs & Hjoin & Hmap).
    destruct (status_join_mapped _ _ _ _ _ Hs Hjoin Hmap) as [Hst _].
    split; [|by apply Hchain].
    destruct (status_join_inv _ _ _ _ Hjoin)
      as (a_id & a & j_id & j & c_id & co & _ & _ & _ & _ & _ & _ & ->).
    rewrite mapper_join_row in Hmap.
    destruct (StatusType_of _); [|done]. injection Hmap as <-. simpl.
    apply (get_full_row_pk tbl_application_status).
  - intros sts c' Hread st Hin. apply Hchain.
    unfold ReadAllApplicationStatuses in Hread.
    rewrite M_bind_unfold, _execute_closed in Hread by done.
    unfold read_closed_form, statement_outcome in Hread.
    destruct (fault_at c 0); [done|].
    change STATUS_JOIN_ORDER_BY_ID with (select_all tbl_application_status) in Hread.
    rewrite exec_select_all in Hread. simpl in Hread. unfold lift in Hread.
    injection Hread as Hmap _.
    apply mapM_Ok_Forall2 in Hmap.
    apply list_elem_of_lookup in Hin as [i Hi].
    destruct (Forall2_lookup_r _ _ _ _ _ Hmap Hi) as (r & Hr & Hst).
    apply list_elem_of_lookup_2 in Hr.
    apply list_elem_of_omap in Hr as ([k s] & Hks & Hjoin). simpl in Hjoin.
    assert (row_of tbl_application_status k (working c) = Some s) as Hs.
    { unfold rows_ordered in Hks. rewrite merge_sort_Permutation in Hks.
      by apply elem_of_map_to_list in Hks. }
    by destruct (status_join_mapped _ _ _ _ _ Hs Hjoin Hst).
Qed.

Lemma status_objects_chain_consistent_witness :
  provider_connection (sample_connection []) ∧
  ∃ st c',
    ReadApplicationStatusByID (VInt 1) (sample_connection []) = (Ok (Some st), c') ∧
    JobPosting.job_id (ApplicationStatus.job st)
      = Application.job_id (ApplicationStatus.application st) ∧
    Company.company_id (ApplicationStatus.company st)
      = JobPosting.company_id (ApplicationStatus.job st).
Proof.
  split; [split; reflexivity|].
  assert (∃ st c', ReadApplicationStatusByID (VInt 1) (sample_connection [])
                   = (Ok (Some st), c')) as (st & c' & Hread)
    by (eexists _, _; vm_compute; reflexivity).
  exists st, c'. split; [exact Hread|].
  exact (proj2 (proj2 (proj1 (status_objects_chain_consistent (sample_connection []) (conj eq_refl eq_refl))
                             1 st c' Hread))).
Defined.

(** ** ReadAll and the order of its result *)

#[local] Instance key_le_total : Total key_le.
Proof. intros x y. unfold key_le. lia. Qed.

#[local] Instance key_le_trans : Transitive key_le.
Proof. intros x y z. unfold key_le. lia. Qed.

Lemma StronglySorted_sublist {A} (R : relation A) l1 l2 :
  l1 `sublist_of` l2 → StronglySorted R l2 → StronglySorted R l1.
Proof.
  induction 1 as [|x l1 l2 Hsub IH|x l1 l2 Hsub IH]; [done| |].
  - rewrite !StronglySorted_cons. intros [Hall Hl2]. split; [|by apply IH].
    rewrite Forall_forall in *. intros y Hy. apply Hall. by eapply elem_of_sublist.
  - rewrite StronglySorted_cons. intros [_ Hl2]. by apply IH.
Qed.

Lemma StronglySorted_le_NoDup_lt (l : list Z) :
  StronglySorted Z.le l → NoDup l → StronglySorted Z.lt l.
Proof.
  induction l as [|x l IH]; [constructor|].
  rewrite !StronglySorted_cons, NoDup_cons. intros [Hall Hl] [Hx Hnd].
  split; [|by apply IH].
  rewrite Forall_forall in *. intros y Hy.
  specialize (Hall y Hy). assert (x ≠ y) by (by intros ->). lia.
Qed.

(** The keys of a table, in the order of ORDER BY: strictly ascending, and
    exactly the keys of its rows. *)
Lemma rows_ordered_keys t d :
  StronglySorted Z.lt (rows_ordered t d).*1 ∧
  ∀ k s, (k, s) ∈ rows_ordered t d ↔ row_of t k d = Some s.
Proof.
  unfold rows_ordered, row_of. split.
  - apply StronglySorted_le_NoDup_lt.
    + apply (StronglySorted_fmap fst key_le Z.le); [by intros x y|].
      apply StronglySorted_merge_sort; apply _.
    + rewrite merge_sort_Permutation. apply NoDup_fst_map_to_list.
  - intros k s. rewrite merge_sort_Permutation. apply elem_of_map_to_list.
Qed.

Lemma rows_all_select t d : rows_all t d = omap (select_row t d) (rows_ordered t d).
Proof. destruct t; unfold rows_all, select_row; try apply list_fmap_alt; reflexivity. Qed.

Lemma row_mapper_project t r :
  t ≠ tbl_application_status →
  ∃ x, row_mapper t (project (pk_col t :: table_cols t) r) = Ok x ∧
       entity_id x = get r (pk_col t) ∧ entity_table x = t.
Proof.
  intros Ht. destruct t; try done; unfold project, table_cols, pk_col, company_cols,
    contact_cols, job_posting_cols, application_cols; cbn [fmap list_fmap];
    repeat match goal with |- context [get ?r ?k] => generalize (get r k); intro end;
    (eexists; split; [vm_compute; reflexivity|split; reflexivity]).
Qed.

(** The identifier of the object mapped from the row selected for key [k]
    is [k]. *)
Lemma select_row_id t d k s r x :
  select_row t d (k, s) = Some r → row_mapper t r = Ok x → entity_id x = VInt k.
Proof.
  destruct (decide (t = tbl_application_status)) as [->|Ht].
  - simpl. intros Hjoin Hmap.
    destruct (status_join_inv _ _ _ _ Hjoin)
      as (a_id & a & j_id & j & c_id & co & _ & _ & _ & _ & _ & _ & ->).
    rewrite mapper_join_row in Hmap.
    destruct (StatusType_of _); [|done].
    cbv [fmap result_fmap mbind result_bind mret result_ret] in Hmap.
    injection Hmap as <-. simpl.
    apply (get_full_row_pk tbl_application_status).
  - intros Hsel Hmap.
    assert (r = project (pk_col t :: table_cols t) (full_row t k s)) as ->.
    { destruct t; try done; by injection Hsel. }
    destruct (row_mapper_project t (full_row t k s) Ht) as (x' & Hx' & Hid & _).
    rewrite Hx' in Hmap. injection Hmap as <-.
    by rewrite Hid, get_full_row_pk.
Qed.

Lemma mapped_ids t d l vs :
  mapM (row_mapper t) (omap (select_row t d) l) = Ok vs →
  entity_id <$> vs = VInt <$> (filter (λ kr, is_Some (select_row t d kr)) l).*1.
Proof.
  revert vs. induction l as [|[k s] l IH]; intros vs; simpl.
  - by intros [= <-].
  - destruct (select_row t d (k, s)) as [r|] eqn:Hsel; simpl.
    + rewrite filter_cons_True by (rewrite Hsel; eauto).
      destruct (row_mapper t r) as [x|e] eqn:Hx; [|done]. simpl.
      destruct (mapM _ _) as [vs'|e]; [|done]. simpl.
      intros [= <-]. simpl. f_equal; [|by apply IH].
      by eapply select_row_id.
    + rewrite filter_cons_False by (rewrite Hsel; by intros [? ?]).
      apply IH.
Qed.

Lemma ReadAllX_result t c :
  provider_connection c → fault_at c 0 = None →
  (ReadAllX t c).1 = mapM (row_mapper t) (omap (select_row t (working c))
                                               (rows_ordered t (working c))).
Proof.
  intros Hauto Hfault.
  rewrite ReadAllX_form, read_many_closed by done.
  by rewrite Hfault, rows_all_select.
Qed.

Lemma mapM_result_cons {A B} (f : A → result B) a l :
  mapM f (a :: l) =
    match f a with
    | Ok b => match mapM f l with Ok k => Ok (b :: k) | Raise e => Raise e end
    | Raise e => Raise e
    end.
Proof. reflexivity. Qed.

Lemma mapM_plain_rows t d l :
  t ≠ tbl_application_status →
  ∃ vs, mapM (row_mapper t) (omap (select_row t d) l) = Ok vs.
Proof.
  intros Ht. induction l as [|[k s] l [vs IH]]; [by exists []|].
  assert (omap (select_row t d) ((k, s) :: l)
          = project (pk_col t :: table_cols t) (full_row t k s)
              :: omap (select_row t d) l) as -> by (by destruct t).
  rewrite mapM_result_cons, IH.
  destruct (row_mapper_project t (full_row t k s) Ht) as (x & -> & _). eauto.
Qed.

(** ** Runs on the sample database *)

(** An insert whose commit fails with error 1213: rollback follows the
    failed commit, the error is re-raised, and the committed database is the
    sample database still. *)
Example create_commit_failure_trace :
  let out := CreateCompany (Company.Build VNone (VStr "Gamma") VNone VNone)
                           (sample_connection [None; Some 1213]) in
  out.1 = Raise (DatabaseError 1213) ∧
  log out.2 =
    [EvCursor;
     EvExecute (INSERT_INTO tbl_company ["name"; "website"; "company_location"])
               [VStr "Gamma"; VNone; VNone] true;
     EvCommit false; EvRollback true; EvCursorClose] ∧
  committed out.2 = sample_database ∧ working out.2 = sample_database.
Proof. repeat split; vm_compute; reflexivity. Qed.

(** In a write helper a rollback that fails is not swallowed: its error
    (here 2055) is the one that leaves the helper, in place of the error of
    the statement (2013). *)
Example write_rollback_failure_trace :
  let out := DeleteCompany (VInt 1) (sample_connection [Some 2013; Some 2055]) in
  out.1 = Raise (DatabaseError 2055) ∧
  log out.2 =
    [EvCursor; EvExecute (DELETE_WHERE_PK tbl_company) [VInt 1] false;
     EvRollback false; EvCursorClose] ∧
  committed out.2 = sample_database.
Proof. repeat split; vm_compute; reflexivity. Qed.

(** The scenario of the smoke test on companies: create, read back, update
    the location, delete, read again. *)
Example company_scenario :
  let acme := Company.Build VNone (VStr "Acme") (VStr "https://acme.test") (VStr "Remote") in
  let moved := Company.Build (VInt 3) (VStr "Acme") (VStr "https://acme.test")
                             (VStr "Austin, TX") in
  let run :=
    created ← CreateCompany acme;
    read1 ← ReadCompanyByID (Company.company_id created);
    updated ← UpdateCompany moved;
    read2 ← ReadCompanyByID (VInt 3);
    deleted ← DeleteCompany (VInt 3);
    read3 ← ReadCompanyByID (VInt 3);
    mret (created, read1, updated, read2, deleted, read3) in
  (run (sample_connection [])).1 =
    Ok (Company.replace_company_id acme (VInt 3),
        Some (Company.replace_company_id acme (VInt 3)),
        true, Some moved, true, None).
Proof. vm_compute. reflexivity. Qed.

(** * Further properties *)

(** ** The enum at the persistence boundary *)

Lemma StatusType_of_value m : StatusType_of (VStr (StatusType_value m)) = Ok m.
Proof. destruct m; reflexivity. Qed.

Lemma StatusType_of_Ok v m : StatusType_of v = Ok m → v = VStr (StatusType_value m).
Proof.
  unfold StatusType_of. destruct v as [| |s| |]; try done.
  destruct (List.find _ _) as [m'|] eqn:Hfind; [|done].
  intros [= <-]. apply List.find_some in Hfind as [_ Hm].
  apply bool_decide_eq_true in Hm. by rewrite Hm.
Qed.

(** X1. The enum at the persistence boundary. A member written as its value
    string reads back as that member; a value that reads as a member is that
    member's string; distinct members have distinct strings; every value that
    is no member's string is refused with ValueError. *)
Theorem StatusType_round_trip :
  (∀ m, StatusType_of (VStr (StatusType_value m)) = Ok m) ∧
  (∀ v m, StatusType_of v = Ok m → v = VStr (StatusType_value m)) ∧
  (∀ m1 m2, StatusType_value m1 = StatusType_value m2 → m1 = m2) ∧
  (∀ v, (∀ m, v ≠ VStr (StatusType_value m)) →
        ∃ msg, StatusType_of v = Raise (ValueError msg)).
Proof.
  split; [apply StatusType_of_value|]. split; [apply StatusType_of_Ok|]. split.
  - intros m1 m2 H. pose proof (StatusType_of_value m1) as H1.
    rewrite H, StatusType_of_value in H1. by injection H1.
  - intros v Hv. destruct (StatusType_of v) as [m|e] eqn:H.
    + apply StatusType_of_Ok in H. by destruct (Hv m).
    + unfold StatusType_of in H. destruct v; try (injection H as <-; eauto).
      destruct (List.find _ _); [done|]. injection H as <-; eauto.
Qed.

Lemma StatusType_round_trip_witness :
  StatusType_of (VStr (StatusType_value OFFER)) = Ok OFFER ∧
  VStr "GHOSTED" = VStr (StatusType_value GHOSTED) ∧
  ∃ msg, StatusType_of (VStr "offer") = Raise (ValueError msg).
Proof.
  split; [apply (proj1 StatusType_round_trip)|]. split.
  - apply (proj1 (proj2 StatusType_round_trip)). reflexivity.
  - apply (proj2 (proj2 (proj2 StatusType_round_trip))).
    intros m; destruct m; discriminate.
Defined.

(** ** What a write leaves behind *)

(** The connection after a write helper returned: the statement's database,
    committed, and the rest of the environment. *)
Lemma write_closed_form_Ok val q ps c v c1 :
  write_closed_form val q ps c = (Ok v, c1) →
  ∃ cur d, statement_outcome q ps c = Ok (cur, d) ∧ v = val cur ∧
           committed c1 = d ∧ working c1 = d ∧ provider_connection c1 ∧
           faults c1 = drop 2 (faults c).
Proof.
  unfold write_closed_form.
  destruct (statement_outcome q ps c) as [[cur d]|e];
    [|destruct (fault_at c 1); intros [=]].
  destruct (fault_at c 1); [destruct (fault_at c 2); intros [=]|].
  intros [= <- <-]. exists cur, d. done.
Qed.

Lemma statement_outcome_Ok q ps c r :
  statement_outcome q ps c = Ok r → fault_at c 0 = None ∧ exec_sql q ps (working c) = Ok r.
Proof. unfold statement_outcome. by destruct (fault_at c 0). Qed.

Lemma create_form_Ok x c x' c1 :
  provider_connection c →
  create_form x c = (Ok x', c1) →
  let t := entity_table x in
  let k := next_id (db_get t (working c)) in
  x' = with_id x (VInt k) ∧ provider_connection c1 ∧
  row_of t k (working c) = None ∧
  working c1 = committed c1 ∧
  committed c1 = db_set t (TableData (<[k := stored_row x]> (rows (db_get t (working c))))
                                     (k + 1)) (working c) ∧
  faults c1 = drop 2 (faults c).
Proof.
  intros Hauto. unfold create_form. rewrite M_bind_unfold, _execute_write_closed by done.
  destruct (write_closed_form _ _ _ c) as [[v|e] c1'] eqn:Hw; [|done].
  intros [= <- <-].
  apply write_closed_form_Ok in Hw as (cur & d & Hout & -> & Hcm & Hwk & Hac & Hf).
  apply statement_outcome_Ok in Hout as [_ Hexec].
  rewrite exec_insert in Hexec by apply entity_params_length.
  simpl in Hexec. destruct (row_of _ _ _) eqn:Hrow; [done|].
  injection Hexec as <- <-. simpl.
  repeat split; try done; try apply Hac. congruence.
Qed.

Lemma project_ext cols (r1 r2 : row) :
  (∀ c, c ∈ cols → get r1 c = get r2 c) → project cols r1 = project cols r2.
Proof.
  intros H. unfold project. f_equal. apply list_fmap_ext.
  intros i c Hc. f_equal. apply H. by eapply list_elem_of_lookup_2.
Qed.

(** Reading back the row a value object was stored as gives the object. *)
Lemma row_mapper_stored x k :
  entity_table x ≠ tbl_application_status →
  row_mapper (entity_table x)
    (project (pk_col (entity_table x) :: table_cols (entity_table x))
             (full_row (entity_table x) k (stored_row x)))
  = Ok (with_id x (VInt k)).
Proof.
  destruct x as [[]|[]|[]|[]|[]]; try done; intros _; vm_compute; reflexivity.
Qed.

Lemma stored_row_cols x c :
  c ∈ table_cols (entity_table x) → is_Some (stored_row x !! c).
Proof.
  destruct x as [[]|[]|[]|[]|[]]; simpl; intros H;
    repeat (apply elem_of_cons in H as [->|H]);
    try (by apply elem_of_nil in H); vm_compute; eauto.
Qed.

Lemma get_full_row_union x k (old : row) c :
  c ∈ pk_col (entity_table x) :: table_cols (entity_table x) →
  get (full_row (entity_table x) k (stored_row x ∪ old)) c
  = get (full_row (entity_table x) k (stored_row x)) c.
Proof.
  intros Hc. unfold get, full_row.
  destruct (decide (c = pk_col (entity_table x))) as [->|Hne].
  - by rewrite !lookup_insert_eq.
  - rewrite !lookup_insert_ne by done.
    apply elem_of_cons in Hc as [->|Hc]; [done|].
    destruct (stored_row_cols x c Hc) as [v Hv].
    by rewrite (lookup_union_Some_l _ _ _ _ Hv), Hv.
Qed.

Lemma db_set_get t d :
  db_set t (TableData (rows (db_get t d)) (next_id (db_get t d))) d = d.
Proof. destruct d as [[] [] [] [] []], t; reflexivity. Qed.

Lemma update_form_Ok x id c b c1 :
  provider_connection c → entity_id x = VInt id →
  update_form x c = (Ok b, c1) →
  let t := entity_table x in
  b = bool_decide (is_Some (row_of t id (working c))) ∧
  provider_connection c1 ∧ working c1 = committed c1 ∧
  row_of t id (committed c1) = (λ old, stored_row x ∪ old) <$> row_of t id (working c) ∧
  (∀ k, k ≠ id → row_of t k (committed c1) = row_of t k (working c)) ∧
  (∀ t', t' ≠ t → db_get t' (committed c1) = db_get t' (working c)) ∧
  next_id (db_get t (committed c1)) = next_id (db_get t (working c)).
Proof.
  intros Hauto Hid. unfold update_form. rewrite Hid, M_bind_unfold.
  rewrite _execute_update_delete_closed by done.
  destruct (write_closed_form _ _ _ c) as [[rc|e] c0] eqn:Hw; [|done].
  apply write_closed_form_Ok in Hw as (cur & d & Hout & -> & Hcm & Hwk & Hac & Hf).
  apply statement_outcome_Ok in Hout as [_ Hexec].
  rewrite exec_update in Hexec by apply entity_params_length.
  fold (stored_row x) in Hexec. unfold no_change in Hexec.
  cbv beta iota. intros Hrest. set (t := entity_table x) in *.
  assert (Hd : row_of t id d = (λ old, stored_row x ∪ old) <$> row_of t id (working c) ∧
               (∀ k, k ≠ id → row_of t k d = row_of t k (working c)) ∧
               (∀ t', t' ≠ t → db_get t' d = db_get t' (working c)) ∧
               next_id (db_get t d) = next_id (db_get t (working c)) ∧
               (rowcount cur > 0 → is_Some (row_of t id (working c)))).
  { destruct (row_of t id (working c)) as [old|] eqn:Hrow; simpl in *.
    - destruct (decide (stored_row x ∪ old = old)) as [Heq|Heq];
        [rewrite bool_decide_eq_true_2 in Hexec by done
        |rewrite bool_decide_eq_false_2 in Hexec by done];
        injection Hexec as <- <-; simpl.
      + rewrite Hrow, Heq. repeat split; try done; try (simpl; lia).
      + unfold row_of. rewrite db_get_set_eq. simpl. rewrite lookup_insert_eq.
        repeat split; try done; eauto.
        * intros k Hk. by rewrite lookup_insert_ne.
        * intros t' Ht'. by rewrite db_get_set_ne.
    - injection Hexec as <- <-. rewrite Hrow. repeat split; try done; try (simpl; lia). }
  destruct Hd as (Hrowd & Hothers & Htabs & Hnext & Hpos).
  case_bool_decide as Hrc.
  - injection Hrest as <- <-. rewrite Hcm, Hwk.
    rewrite bool_decide_eq_true_2 by auto. done.
  - unfold _exists in Hrest. rewrite M_bind_unfold, _execute_closed in Hrest by done.
    unfold read_closed_form, statement_outcome in Hrest. simpl in Hrest.
    destruct (fault_at c0 0); [done|].
    rewrite Hwk, exec_exists in Hrest. simpl in Hrest.
    injection Hrest as <- <-. simpl. rewrite Hcm.
    split.
    + rewrite Hrowd. destruct (row_of t id (working c)); reflexivity.
    + repeat split; try done. by case_bool_decide.
Qed.

(** X2. Create, then read, for companies, contacts, job postings and
    applications. After a create returned [x'], a read by the identifier of
    [x'] on the connection the create left returns exactly [x'] whenever it
    returns, and it does return when the engine raises no error at the
    SELECT. *)
Theorem create_then_read_round_trip x c x' c1 :
  provider_connection c →
  entity_table x ≠ tbl_application_status →
  CreateX x c = (Ok x', c1) →
  (∀ r c2, ReadXByID (entity_table x) (entity_id x') c1 = (Ok r, c2) → r = Some x') ∧
  (fault_at c1 0 = None →
     (ReadXByID (entity_table x) (entity_id x') c1).1 = Ok (Some x')).
Proof.
  intros Hauto Ht Hcreate.
  assert (references_set x = true) as Href by (by destruct x).
  rewrite CreateX_form in Hcreate by done.
  apply create_form_Ok in Hcreate as (-> & Hauto1 & _ & Hwk & Hcm & _); [|done].
  rewrite entity_id_with_id.
  assert (ReadXByID (entity_table x) (VInt (next_id (db_get (entity_table x) (working c)))) c1
          = (match fault_at c1 0 with
             | Some n => Raise (DatabaseError n)
             | None => Ok (Some (with_id x (VInt (next_id (db_get (entity_table x) (working c))))))
             end,
             (read_closed_form (select_by_id (entity_table x))
                [VInt (next_id (db_get (entity_table x) (working c)))] true false c1).2)) as ->.
  { rewrite ReadXByID_form, read_one_closed by done.
    destruct (fault_at c1 0); [done|]. f_equal.
    unfold rows_by_id, row_of. rewrite Hwk, Hcm, db_get_set_eq. simpl.
    rewrite lookup_insert_eq.
    assert (∀ rs : list row,
              match entity_table x with
              | tbl_application_status => rs
              | _ => [project (pk_col (entity_table x) :: table_cols (entity_table x))
                        (full_row (entity_table x)
                           (next_id (db_get (entity_table x) (working c))) (stored_row x))]
              end
              = [project (pk_col (entity_table x) :: table_cols (entity_table x))
                   (full_row (entity_table x)
                      (next_id (db_get (entity_table x) (working c))) (stored_row x))]) as ->
      by (by destruct (entity_table x)).
    by rewrite row_mapper_stored. }
  split.
  - intros r c2. destruct (fault_at c1 0); by intros [= <- _].
  - by intros ->.
Qed.

Lemma create_then_read_round_trip_witness :
  provider_connection small_connection ∧
  ∃ x' c1, CreateX (ACompany gamma) small_connection = (Ok x', c1) ∧
           (ReadXByID tbl_company (entity_id x') c1).1 = Ok (Some x').
Proof.
  split; [split; reflexivity|].
  assert (∃ x' c1, CreateX (ACompany gamma) small_connection = (Ok x', c1) ∧
                   fault_at c1 0 = None) as (x' & c1 & Hc & Hf)
    by (eexists _, _; split; vm_compute; reflexivity).
  exists x', c1. split; [exact Hc|].
  exact (proj2 (create_then_read_round_trip (ACompany gamma) small_connection
                  x' c1 (conj eq_refl eq_refl) ltac:(discriminate) Hc) Hf).
Defined.

Lemma ReadXByID_result t id c :
  provider_connection c →
  (ReadXByID t (VInt id) c).1 =
    match fault_at c 0 with
    | Some n => Raise (DatabaseError n)
    | None =>
        match rows_by_id t id (working c) with
        | [] => Ok None
        | r :: _ => Some <$> row_mapper t r
        end
    end.
Proof. intros. by rewrite ReadXByID_form, read_one_closed. Qed.

Lemma rows_by_id_plain t id d r :
  t ≠ tbl_application_status → row_of t id d = Some r →
  rows_by_id t id d = [project (pk_col t :: table_cols t) (full_row t id r)].
Proof. unfold rows_by_id. intros Ht ->. by destruct t. Qed.

(** X3. Update, then read, for companies, contacts, job postings and
    applications. After an update returned [True], a read by the same
    identifier returns exactly the object that was passed to the update
    whenever it returns, and it does return when the engine raises no error at
    the SELECT. *)
Theorem update_then_read_reflects_values x id c c1 :
  provider_connection c →
  entity_table x ≠ tbl_application_status →
  entity_id x = VInt id →
  UpdateX x c = (Ok true, c1) →
  (∀ r c2, ReadXByID (entity_table x) (VInt id) c1 = (Ok r, c2) → r = Some x) ∧
  (fault_at c1 0 = None → (ReadXByID (entity_table x) (VInt id) c1).1 = Ok (Some x)).
Proof.
  intros Hauto Ht Hid Hupd.
  assert (entity_id x ≠ VNone) as Hset by (by rewrite Hid).
  assert (references_set x = true) as Href by (by destruct x).
  rewrite UpdateX_form in Hupd by done.
  apply (update_form_Ok x id) in Hupd as (Hb & Hauto1 & Hwk & Hrow & _); [|done..].
  symmetry in Hb. apply bool_decide_eq_true in Hb as [old Hold].
  rewrite Hold in Hrow. simpl in Hrow.
  assert ((ReadXByID (entity_table x) (VInt id) c1).1
          = match fault_at c1 0 with
            | Some n => Raise (DatabaseError n)
            | None => Ok (Some x)
            end) as Hres.
  { rewrite ReadXByID_result by done. destruct (fault_at c1 0); [done|].
    rewrite (rows_by_id_plain _ _ _ (stored_row x ∪ old) Ht) by (rewrite Hwk; exact Hrow).
    rewrite (project_ext _ _ (full_row (entity_table x) id (stored_row x)))
      by apply get_full_row_union.
    rewrite row_mapper_stored by done.
    by rewrite <- Hid, with_id_entity_id. }
  split.
  - intros r c2 Hread. rewrite Hread in Hres. simpl in Hres.
    destruct (fault_at c1 0); by simplify_eq.
  - intros Hf. by rewrite Hres, Hf.
Qed.

Lemma update_then_read_reflects_values_witness :
  provider_connection small_connection ∧
  ∃ c1, UpdateX (ACompany acme_moved) small_connection = (Ok true, c1) ∧
        (ReadXByID tbl_company (VInt 1) c1).1 = Ok (Some (ACompany acme_moved)).
Proof.
  split; [split; reflexivity|].
  assert (∃ c1, UpdateX (ACompany acme_moved) small_connection = (Ok true, c1) ∧
                fault_at c1 0 = None) as (c1 & Hu & Hf)
    by (eexists; split; vm_compute; reflexivity).
  exists c1. split; [exact Hu|].
  exact (proj2 (update_then_read_reflects_values (ACompany acme_moved) 1 small_connection c1
                  (conj eq_refl eq_refl) ltac:(discriminate) eq_refl Hu) Hf).
Defined.

Lemma delete_form_Ok t id c b c1 :
  provider_connection c →
  delete_form t (VInt id) c = (Ok b, c1) →
  b = bool_decide (is_Some (row_of t id (working c))) ∧
  provider_connection c1 ∧ working c1 = committed c1 ∧
  committed c1 = db_set t (TableData (delete id (rows (db_get t (working c))))
                                     (next_id (db_get t (working c)))) (working c).
Proof.
  intros Hauto. unfold delete_form. rewrite M_bind_unfold.
  rewrite _execute_update_delete_closed by done.
  destruct (write_closed_form _ _ _ c) as [[rc|e] c0] eqn:Hw; [|done].
  apply write_closed_form_Ok in Hw as (cur & d & Hout & -> & Hcm & Hwk & Hac & Hf).
  apply statement_outcome_Ok in Hout as [_ Hexec].
  rewrite exec_delete in Hexec. unfold no_change in Hexec.
  intros [= <- <-]. rewrite Hcm, Hwk.
  destruct (row_of t id (working c)) as [old|] eqn:Hrow; injection Hexec as <- <-; simpl.
  - done.
  - repeat split; try done; try apply Hac.
    unfold row_of in Hrow. rewrite delete_id by done. by rewrite db_set_get.
Qed.

Lemma table_data_eq (a b : table_data) :
  rows a = rows b → next_id a = next_id b → a = b.
Proof. destruct a, b; simpl; by intros -> ->. Qed.

Lemma database_eq (d1 d2 : database) :
  (∀ t, db_get t d1 = db_get t d2) → d1 = d2.
Proof.
  intros H. destruct d1, d2.
  pose proof (H tbl_company). pose proof (H tbl_contact). pose proof (H tbl_job_posting).
  pose proof (H tbl_application). pose proof (H tbl_application_status).
  simpl in *. congruence.
Qed.

(** X7. Updating twice is updating once. After an update returned [b], the
    same update on the connection it left returns [b] again whenever it
    returns and changes no data; it does return when the engine raises no
    error. *)
Theorem update_twice_is_update_once x id c b c1 :
  provider_connection c →
  entity_id x = VInt id → references_set x = true →
  UpdateX x c = (Ok b, c1) →
  (∀ b' c2, UpdateX x c1 = (Ok b', c2) → b' = b ∧ committed c2 = committed c1) ∧
  (faults c1 = [] → ∃ c2, UpdateX x c1 = (Ok b, c2)).
Proof.
  intros Hauto Hid Href Hupd.
  assert (entity_id x ≠ VNone) as Hset by (by rewrite Hid).
  rewrite UpdateX_form in Hupd by done.
  apply (update_form_Ok x id) in Hupd as (Hb & Hauto1 & Hwk & Hrow & Hk & Ht & Hn);
    [|done..].
  assert (Hsecond : ∀ b' c2, UpdateX x c1 = (Ok b', c2) →
                             b' = b ∧ committed c2 = committed c1).
  { intros b' c2 Hupd2. rewrite UpdateX_form in Hupd2 by done.
    apply (update_form_Ok x id) in Hupd2 as (Hb' & _ & _ & Hrow' & Hk' & Ht' & Hn');
      [|done..].
    rewrite Hwk in *. split.
    - rewrite Hb, Hb', Hrow. by destruct (row_of _ id (working c)).
    - apply database_eq. intros t.
      destruct (decide (t = entity_table x)) as [->|Hne]; [|by apply Ht'].
      apply table_data_eq; [|done].
      apply map_eq. intros k. destruct (decide (k = id)) as [->|Hkne].
      + fold (row_of (entity_table x) id (committed c2)).
        fold (row_of (entity_table x) id (committed c1)).
        rewrite Hrow', Hrow. destruct (row_of _ id (working c)) as [old|]; [|done].
        simpl. f_equal. by rewrite (assoc_L (∪)), (idemp_L (∪)).
      + by apply Hk'. }
  split; [done|].
  intros Hnofault.
  destruct (UpdateX x c1) as [[b'|e] c2] eqn:Hupd2.
  - destruct (Hsecond b' c2 eq_refl) as [-> _]. eauto.
  - exfalso. rewrite UpdateX_form in Hupd2 by done.
    unfold update_form in Hupd2. rewrite M_bind_unfold in Hupd2.
    rewrite _execute_update_delete_closed in Hupd2 by done.
    unfold write_closed_form, statement_outcome in Hupd2.
    rewrite !(fault_at_nil c1) in Hupd2 by done.
    rewrite Hid, exec_update in Hupd2 by apply entity_params_length.
    unfold no_change in Hupd2.
    assert (Hex : ∀ d lg, (_exists (table_name (entity_table x)) (pk_col (entity_table x))
                             (VInt id) (Connection d d false false [] lg [])).1
                          ≠ Raise e).
    { intros d lg. unfold _exists. rewrite M_bind_unfold, _execute_closed by done.
      unfold read_closed_form, statement_outcome, fault_at. simpl.
      rewrite exec_exists. simpl. done. }
    rewrite Hnofault in Hupd2. simpl in Hupd2.
    destruct (row_of _ id (working c1)) as [old|]; simpl in Hupd2.
    + case_bool_decide; simpl in Hupd2; [|done].
      eapply Hex. by rewrite Hupd2.
    + eapply Hex. by rewrite Hupd2.
Qed.

Lemma update_twice_is_update_once_witness :
  provider_connection small_connection ∧
  ∃ c1 c2, UpdateX (ACompany acme_moved) small_connection = (Ok true, c1) ∧
           UpdateX (ACompany acme_moved) c1 = (Ok true, c2).
Proof.
  split; [split; reflexivity|].
  assert (∃ c1, UpdateX (ACompany acme_moved) small_connection = (Ok true, c1) ∧
                faults c1 = []) as (c1 & Hu & Hf)
    by (eexists; split; vm_compute; reflexivity).
  destruct (proj2 (update_twice_is_update_once (ACompany acme_moved) 1 small_connection
                     true c1 (conj eq_refl eq_refl) eq_refl eq_refl Hu) Hf) as [c2 Hu2].
  exists c1, c2. split; assumption.
Defined.

(** X8. Deleting twice. After a delete returned, the same delete on the
    connection it left returns [False] whenever it returns and changes no
    data; it does return when the engine raises no error. *)
Theorem delete_twice_second_is_false t id c b c1 :
  provider_connection c →
  DeleteX t (VInt id) c = (Ok b, c1) →
  (∀ b' c2, DeleteX t (VInt id) c1 = (Ok b', c2) →
            b' = false ∧ committed c2 = committed c1) ∧
  (faults c1 = [] → ∃ c2, DeleteX t (VInt id) c1 = (Ok false, c2)).
Proof.
  intros Hauto Hdel. rewrite DeleteX_form in Hdel.
  apply delete_form_Ok in Hdel as (_ & Hauto1 & Hwk & Hcm); [|done].
  assert (row_of t id (working c1) = None) as Hgone.
  { rewrite Hwk, Hcm. unfold row_of. rewrite db_get_set_eq. simpl. apply lookup_delete_eq. }
  split.
  - intros b' c2 Hdel2. rewrite DeleteX_form in Hdel2.
    apply delete_form_Ok in Hdel2 as (-> & _ & _ & Hcm2); [|done].
    rewrite Hgone. split; [reflexivity|].
    rewrite Hcm2. unfold row_of in Hgone. rewrite delete_id by done.
    by rewrite db_set_get.
  - intros Hnofault. rewrite DeleteX_form. unfold delete_form.
    rewrite M_bind_unfold, _execute_update_delete_closed by done.
    unfold write_closed_form, statement_outcome.
    rewrite !(fault_at_nil c1) by done.
    rewrite exec_delete, Hgone. unfold no_change. simpl. eauto.
Qed.

Lemma delete_twice_second_is_false_witness :
  provider_connection small_connection ∧
  ∃ c1 c2, DeleteX tbl_company (VInt 1) small_connection = (Ok true, c1) ∧
           DeleteX tbl_company (VInt 1) c1 = (Ok false, c2).
Proof.
  split; [split; reflexivity|].
  assert (∃ c1, DeleteX tbl_company (VInt 1) small_connection = (Ok true, c1) ∧
                faults c1 = []) as (c1 & Hd & Hf)
    by (eexists; split; vm_compute; reflexivity).
  destruct (proj2 (delete_twice_second_is_false tbl_company 1 small_connection true c1
                     (conj eq_refl eq_refl) Hd) Hf) as [c2 Hd2].
  exists c1, c2. split; assumption.
Defined.

Lemma CreateX_Ok x c x' c1 :
  provider_connection c → CreateX x c = (Ok x', c1) →
  references_set x = true ∧ create_form x c = (Ok x', c1).
Proof.
  intros Hauto Hc. destruct (references_set x) eqn:Href.
  - by rewrite CreateX_form in Hc.
  - destruct (references_missing x c Href) as [_ [msg Hm]]. by rewrite Hm in Hc.
Qed.

Lemma UpdateX_Ok x c b c1 :
  provider_connection c → UpdateX x c = (Ok b, c1) →
  entity_id x ≠ VNone ∧ references_set x = true ∧ update_form x c = (Ok b, c1).
Proof.
  intros Hauto Hu.
  destruct (decide (entity_id x = VNone)) as [Hid|Hid].
  { destruct (update_without_id_refused x c Hid) as [msg Hm]. by rewrite Hm in Hu. }
  destruct (references_set x) eqn:Href.
  - by rewrite UpdateX_form in Hu.
  - destruct (references_missing x c Href) as [[msg Hm] _]. by rewrite Hm in Hu.
Qed.

(** X5. What a write changes. A create that returned stored the input's
    values under an identifier that was unused, and changed no other row and
    no other table. An update that returned overwrote the stored columns of
    the row with the given identifier, if there is one, and changed no other
    row, no other table and not the identifier the next insert gets. *)
Theorem writes_touch_one_row c :
  provider_connection c →
  (∀ x x' c1, CreateX x c = (Ok x', c1) →
     ∃ k, entity_id x' = VInt k ∧
          row_of (entity_table x) k (working c) = None ∧
          row_of (entity_table x) k (committed c1) = Some (stored_row x) ∧
          (∀ k', k' ≠ k → row_of (entity_table x) k' (committed c1)
                          = row_of (entity_table x) k' (working c)) ∧
          (∀ t', t' ≠ entity_table x → db_get t' (committed c1) = db_get t' (working c))) ∧
  (∀ x id b c1, entity_id x = VInt id → UpdateX x c = (Ok b, c1) →
     row_of (entity_table x) id (committed c1)
       = (λ old, stored_row x ∪ old) <$> row_of (entity_table x) id (working c) ∧
     (∀ k', k' ≠ id → row_of (entity_table x) k' (committed c1)
                      = row_of (entity_table x) k' (working c)) ∧
     (∀ t', t' ≠ entity_table x → db_get t' (committed c1) = db_get t' (working c)) ∧
     next_id (db_get (entity_table x) (committed c1))
       = next_id (db_get (entity_table x) (working c))).
Proof.
  intros Hauto. split.
  - intros x x' c1 Hc. apply CreateX_Ok in Hc as [_ Hc]; [|done].
    apply create_form_Ok in Hc as (-> & _ & Hfree & _ & Hcm & _); [|done].
    eexists. split; [apply entity_id_with_id|]. split; [done|].
    rewrite Hcm. unfold row_of. rewrite db_get_set_eq. simpl.
    split; [apply lookup_insert_eq|]. split.
    + intros k' Hk'. by rewrite lookup_insert_ne.
    + intros t' Ht'. by rewrite db_get_set_ne.
  - intros x id b c1 Hid Hu. apply UpdateX_Ok in Hu as (_ & _ & Hu); [|done].
    by apply (update_form_Ok x id) in Hu as (_ & _ & _ & ? & ? & ? & ?).
Qed.

Lemma writes_touch_one_row_witness :
  provider_connection small_connection ∧
  ∃ x' c1, CreateX (ACompany gamma) small_connection = (Ok x', c1) ∧
           row_of tbl_company 1 (committed c1) = row_of tbl_company 1 small_database.
Proof.
  split; [split; reflexivity|].
  assert (∃ x' c1, CreateX (ACompany gamma) small_connection = (Ok x', c1) ∧
                   entity_id x' = VInt 2) as (x' & c1 & Hc & Hid)
    by (eexists _, _; split; vm_compute; reflexivity).
  exists x', c1. split; [exact Hc|].
  destruct (proj1 (writes_touch_one_row small_connection (conj eq_refl eq_refl)) _ _ _ Hc)
    as (k & Hk & _ & _ & Hothers & _).
  apply Hothers. intros Heq. congruence.
Defined.

(** A SELECT changes no row. *)
Lemma exec_select_read_only t ps d cur d' :
  exec_sql (select_by_id t) ps d = Ok (cur, d') ∨
  exec_sql (select_all t) ps d = Ok (cur, d') →
  d' = d.
Proof.
  intros [H|H]; destruct t; unfold exec_sql in H; simpl in H;
    repeat (case_match; simplify_eq); done.
Qed.

Lemma read_closed_form_databases q ps f1 f2 c :
  (∀ cur d, exec_sql q ps (working c) = Ok (cur, d) → d = working c) →
  committed (read_closed_form q ps f1 f2 c).2 = committed c ∧
  (working c = committed c → working (read_closed_form q ps f1 f2 c).2 = working c).
Proof.
  intros Hro. unfold read_closed_form, statement_outcome. simpl. split; [done|].
  intros Hclean. case_bool_decide; [done|].
  destruct (fault_at c 0); [done|].
  destruct (exec_sql q ps (working c)) as [[cur d]|e] eqn:He; [|done].
  by eapply Hro.
Qed.

(** X9. Reads change no data. After a read by identifier or a read of all,
    whatever it returned or raised, the committed data are as before, and so
    are the data the connection sees when nothing was pending. *)
Theorem reads_change_no_database c :
  provider_connection c →
  (∀ t id, committed (ReadXByID t id c).2 = committed c ∧
           (working c = committed c → working (ReadXByID t id c).2 = working c)) ∧
  (∀ t, committed (ReadAllX t c).2 = committed c ∧
        (working c = committed c → working (ReadAllX t c).2 = working c)).
Proof.
  intros Hauto. split.
  - intros t id. rewrite ReadXByID_form, read_one_form_mapped. simpl.
    rewrite _execute_closed by done. apply read_closed_form_databases.
    intros cur d H. eapply exec_select_read_only. by left.
  - intros t. rewrite ReadAllX_form, read_many_form_mapped. simpl.
    rewrite _execute_closed by done. apply read_closed_form_databases.
    intros cur d H. eapply exec_select_read_only. by right.
Qed.

Lemma reads_change_no_database_witness :
  provider_connection small_connection ∧
  committed (ReadXByID tbl_company (VInt 1) small_connection).2 = small_database ∧
  working (ReadAllX tbl_application_status small_connection).2 = small_database.
Proof.
  split; [split; reflexivity|]. split.
  - apply (proj1 (proj1 (reads_change_no_database small_connection (conj eq_refl eq_refl))
                        tbl_company (VInt 1))).
  - apply (proj2 (proj2 (reads_change_no_database small_connection (conj eq_refl eq_refl))
                        tbl_application_status)). reflexivity.
Defined.

Lemma entity_table_with_id x i : entity_table (with_id x i) = entity_table x.
Proof. by destruct x. Qed.

Lemma references_set_with_id x i : references_set (with_id x i) = references_set x.
Proof. by destruct x. Qed.

(** X6. A create never overwrites. The identifier the input carries is
    ignored: with any other identifier in its place the call does the same;
    and a row stored under the input's identifier is there unchanged after the
    create, whose result carries another identifier. *)
Theorem create_never_overwrites x c :
  provider_connection c →
  (∀ i, CreateX (with_id x i) c = CreateX x c) ∧
  (∀ j old x' c1,
     entity_id x = VInt j → row_of (entity_table x) j (working c) = Some old →
     CreateX x c = (Ok x', c1) →
     entity_id x' ≠ VInt j ∧ row_of (entity_table x) j (committed c1) = Some old).
Proof.
  intros Hauto. split.
  - intros i. destruct (references_set x) eqn:Href.
    + rewrite !CreateX_form by (by rewrite ?references_set_with_id).
      unfold create_form.
      rewrite entity_table_with_id, entity_params_with_id, !M_bind_unfold.
      destruct (_execute_write _ _ c) as [[k|e] c1]; [|done].
      unfold mret, M_ret. by rewrite with_id_with_id.
    + by destruct x.
  - intros j old x' c1 Hid Hold Hc. apply CreateX_Ok in Hc as [_ Hc]; [|done].
    apply create_form_Ok in Hc as (-> & _ & Hfree & _ & Hcm & _); [|done].
    rewrite entity_id_with_id.
    assert (next_id (db_get (entity_table x) (working c)) ≠ j) as Hne
      by (intros Hk; rewrite Hk in Hfree; congruence).
    split; [congruence|].
    rewrite Hcm. unfold row_of. rewrite db_get_set_eq. simpl.
    by rewrite lookup_insert_ne.
Qed.

Lemma create_never_overwrites_witness :
  provider_connection small_connection ∧
  ∃ x' c1, CreateX (ACompany acme_moved) small_connection = (Ok x', c1) ∧
           entity_id x' ≠ VInt 1 ∧ is_Some (row_of tbl_company 1 (committed c1)).
Proof.
  split; [split; reflexivity|].
  assert (∃ x' c1, CreateX (ACompany acme_moved) small_connection = (Ok x', c1))
    as (x' & c1 & Hc) by (eexists _, _; vm_compute; reflexivity).
  assert (∃ old, row_of tbl_company 1 (working small_connection) = Some old)
    as (old & Hold) by (eexists; vm_compute; reflexivity).
  exists x', c1. split; [exact Hc|].
  destruct (proj2 (create_never_overwrites (ACompany acme_moved) small_connection (conj eq_refl eq_refl))
              1 old x' c1 eq_refl Hold Hc) as [Hne Hrow].
  split; [exact Hne|]. exists old. exact Hrow.
Defined.

(** X13. [_exists] on a table and its key column changes no data, returns
    whether a row with the identifier exists when the engine raises no error,
    and passes the engine's error on otherwise. *)
Theorem exists_tells_whether_row_exists t id c :
  provider_connection c →
  let out := _exists (table_name t) (pk_col t) (VInt id) c in
  committed out.2 = committed c ∧
  (working c = committed c → working out.2 = working c) ∧
  (fault_at c 0 = None → out.1 = Ok (bool_decide (is_Some (row_of t id (working c))))) ∧
  (∀ n, fault_at c 0 = Some n → out.1 = Raise (DatabaseError n)).
Proof.
  intros Hauto. unfold _exists. rewrite M_bind_unfold, _execute_closed by done.
  assert (Hro : ∀ cur d, exec_sql (SELECT_1_WHERE (table_name t) (pk_col t)) [VInt id]
                                  (working c) = Ok (cur, d) → d = working c)
    by (intros cur d H; by apply exec_select_1_read_only in H).
  destruct (read_closed_form_databases _ _ true false c Hro) as [Hcm Hwk].
  unfold read_closed_form, statement_outcome in *.
  destruct (fault_at c 0) as [n|] eqn:Hf; simpl in *.
  - repeat split; try done. by intros ? [= <-].
  - rewrite exec_exists in *. simpl in *.
    repeat split; try done. intros _.
    destruct (row_of t id (working c)); reflexivity.
Qed.

Lemma exists_tells_whether_row_exists_witness :
  provider_connection small_connection ∧
  (_exists "company" "company_id" (VInt 1) small_connection).1 = Ok true ∧
  (_exists "contact" "contact_id" (VInt 1) small_connection).1 = Ok false.
Proof.
  split; [split; reflexivity|]. split.
  - apply (proj1 (proj2 (proj2 (exists_tells_whether_row_exists tbl_company 1
                                  small_connection (conj eq_refl eq_refl))))). reflexivity.
  - apply (proj1 (proj2 (proj2 (exists_tells_whether_row_exists tbl_contact 1
                                  small_connection (conj eq_refl eq_refl))))). reflexivity.
Defined.

(** The object the mapper makes of a stored row of a plain table. *)
Lemma row_mapper_plain t id r :
  t ≠ tbl_application_status →
  ∃ x, row_mapper t (project (pk_col t :: table_cols t) (full_row t id r)) = Ok x ∧
       entity_id x = VInt id ∧ entity_table x = t.
Proof.
  intros Ht. destruct (row_mapper_project t (full_row t id r) Ht) as (x & Hx & Hid & Htx).
  exists x. by rewrite <- (get_full_row_pk t id r).
Qed.

(** X10. Read by identifier for companies, contacts, job postings and
    applications. When the engine raises no error the result is [None]
    exactly when no row has the identifier, and otherwise an object of that
    table carrying the identifier; the only exception is the engine's error;
    and the identifier [None] finds nothing. *)
Theorem read_by_id_found_or_absent t id c :
  provider_connection c →
  t ≠ tbl_application_status →
  let result := (ReadXByID t (VInt id) c).1 in
  (fault_at c 0 = None →
     ∃ r, result = Ok r ∧
          (r = None ↔ row_of t id (working c) = None) ∧
          (∀ x, r = Some x → entity_id x = VInt id ∧ entity_table x = t)) ∧
  (∀ e, result = Raise e → ∃ n, e = DatabaseError n ∧ fault_at c 0 = Some n) ∧
  (fault_at c 0 = None → (ReadXByID t VNone c).1 = Ok None).
Proof.
  intros Hauto Ht result. unfold result. rewrite ReadXByID_result by done.
  assert (Hrows : match rows_by_id t id (working c) with
                  | [] => Ok None
                  | r :: _ => Some <$> row_mapper t r
                  end
                  = match row_of t id (working c) with
                    | Some r => Some <$> row_mapper t
                                  (project (pk_col t :: table_cols t) (full_row t id r))
                    | None => Ok None
                    end).
  { destruct (row_of t id (working c)) as [r|] eqn:Hrow.
    - by rewrite (rows_by_id_plain _ _ _ r).
    - by rewrite rows_by_id_absent. }
  rewrite Hrows. split; [|split].
  - intros ->. destruct (row_of t id (working c)) as [r|] eqn:Hrow.
    + destruct (row_mapper_plain t id r Ht) as (x & -> & Hid & Htx).
      exists (Some x). split; [done|]. split; [done|]. by intros ? [= <-].
    + exists None. done.
  - intros e. destruct (fault_at c 0) as [n|]; [intros [= <-]; eauto|].
    destruct (row_of t id (working c)) as [r|]; [|done].
    by destruct (row_mapper_plain t id r Ht) as (x & -> & _).
  - intros Hf. rewrite ReadXByID_form. unfold read_one_form.
    rewrite M_bind_unfold, _execute_closed by done.
    unfold read_closed_form, statement_outcome. rewrite Hf.
    by destruct t.
Qed.

Lemma read_by_id_found_or_absent_witness :
  provider_connection small_connection ∧
  (ReadXByID tbl_company VNone small_connection).1 = Ok None ∧
  ∃ r, (ReadXByID tbl_company (VInt 7) small_connection).1 = Ok r ∧ r = None.
Proof.
  split; [split; reflexivity|]. split.
  - apply (proj2 (proj2 (read_by_id_found_or_absent tbl_company 0 small_connection
                           (conj eq_refl eq_refl) ltac:(discriminate)))). reflexivity.
  - destruct (proj1 (read_by_id_found_or_absent tbl_company 7 small_connection
                       (conj eq_refl eq_refl) ltac:(discriminate)) eq_refl) as (r & Hr & Hnone & _).
    exists r. split; [exact Hr|]. apply Hnone. reflexivity.
Defined.

Lemma rows_by_id_select t k d s :
  row_of t k d = Some s → rows_by_id t k d = option_list (select_row t d (k, s)).
Proof. unfold rows_by_id. intros ->. by destruct t. Qed.

Lemma ReadAllX_Ok t c vs c' :
  provider_connection c → ReadAllX t c = (Ok vs, c') →
  fault_at c 0 = None ∧
  mapM (row_mapper t) (omap (select_row t (working c)) (rows_ordered t (working c))) = Ok vs.
Proof.
  intros Hauto Hread. rewrite ReadAllX_form, read_many_closed in Hread by done.
  destruct (fault_at c 0); [done|]. split; [done|].
  rewrite <- rows_all_select. by injection Hread.
Qed.

(** X11. Read all agrees with read by identifier. Every object a read of
    all returned has an integer identifier, and a read by that identifier on
    the same data returns the same object. *)
Theorem read_all_agrees_with_read_by_id t c vs c' :
  provider_connection c →
  ReadAllX t c = (Ok vs, c') →
  ∀ x, x ∈ vs →
    ∃ id, entity_id x = VInt id ∧
          ∀ c1, provider_connection c1 → working c1 = working c → fault_at c1 0 = None →
                (ReadXByID t (VInt id) c1).1 = Ok (Some x).
Proof.
  intros Hauto Hread x Hx.
  apply ReadAllX_Ok in Hread as [_ Hmap]; [|done].
  apply mapM_Ok_Forall2 in Hmap.
  apply list_elem_of_lookup in Hx as [i Hi].
  destruct (Forall2_lookup_r _ _ _ _ _ Hmap Hi) as (r & Hr & Hrx).
  apply list_elem_of_lookup_2, list_elem_of_omap in Hr as ([k s] & Hks & Hsel).
  apply (proj2 (rows_ordered_keys t (working c))) in Hks.
  exists k. split; [by eapply select_row_id|].
  intros c1 Hauto1 Hwk Hf.
  rewrite ReadXByID_result, Hf, Hwk by done.
  rewrite (rows_by_id_select _ _ _ s Hks), Hsel. simpl. by rewrite Hrx.
Qed.

Lemma read_all_agrees_with_read_by_id_witness :
  provider_connection small_connection ∧
  ∃ vs c' x id,
    ReadAllX tbl_application_status small_connection = (Ok vs, c') ∧ x ∈ vs ∧
    entity_id x = VInt id ∧
    (ReadXByID tbl_application_status (VInt id) small_connection).1 = Ok (Some x).
Proof.
  split; [split; reflexivity|].
  assert (∃ vs c' x, ReadAllX tbl_application_status small_connection = (Ok vs, c') ∧
                     x ∈ vs) as (vs & c' & x & Hread & Hx)
    by (eexists _, _, _; split; [vm_compute; reflexivity|apply list_elem_of_here]).
  destruct (read_all_agrees_with_read_by_id tbl_application_status small_connection
              vs c' (conj eq_refl eq_refl) Hread x Hx) as (id & Hid & Hby).
  exists vs, c', x, id. split; [exact Hread|]. split; [exact Hx|]. split; [exact Hid|].
  apply Hby; [split; reflexivity|reflexivity|reflexivity].
Defined.

Lemma mapM_result_Ok_iff {A B} (f : A → result B) l :
  (∃ k, mapM f l = Ok k) ↔ ∀ a, a ∈ l → ∃ b, f a = Ok b.
Proof.
  induction l as [|a l IH].
  - split; [intros _ a Ha; by apply elem_of_nil in Ha|by exists []].
  - rewrite mapM_result_cons. split.
    + intros [k Hk] a' Ha'. destruct (f a) as [b|e] eqn:Hfa; [|done].
      destruct (mapM f l) as [k'|e] eqn:Hm; [|done].
      apply elem_of_cons in Ha' as [->|Ha']; [eauto|].
      apply IH; eauto.
    + intros Hall. destruct (Hall a) as [b ->]; [by left|].
      destruct (proj2 IH) as [k ->]; [|eauto].
      intros a' Ha'. apply Hall. by right.
Qed.

Lemma mapM_result_Raise {A B} (f : A → result B) l e :
  mapM f l = Raise e → ∃ a, a ∈ l ∧ f a = Raise e.
Proof.
  induction l as [|a l IH]; [done|]. rewrite mapM_result_cons.
  destruct (f a) as [b|e'] eqn:Hfa.
  - destruct (mapM f l) as [k|e'] eqn:Hm; [done|]. intros [= ->].
    destruct IH as (a' & Ha' & Hfa'); [done|]. exists a'. split; [by right|done].
  - intros [= ->]. exists a. split; [by left|done].
Qed.

Lemma StatusType_of_error v e : StatusType_of v = Raise e → ∃ msg, e = ValueError msg.
Proof.
  unfold StatusType_of. destruct v; try (intros [= <-]; eauto).
  destruct (List.find _ _); [done|]. intros [= <-]; eauto.
Qed.

(** The mapper on the joined row of a status: it succeeds exactly when the
    stored status string is one of the ten, and fails with the error of the
    enum otherwise. *)
Lemma row_mapper_status_outcome d k s r :
  status_join d k s = Some r →
  match StatusType_of (get s "status") with
  | Ok _ => ∃ x, row_mapper tbl_application_status r = Ok x
  | Raise e => row_mapper tbl_application_status r = Raise e
  end.
Proof.
  intros Hjoin.
  destruct (status_join_inv _ _ _ _ Hjoin)
    as (a_id & a & j_id & j & c_id & co & _ & _ & _ & _ & _ & _ & ->).
  unfold row_mapper. rewrite mapper_join_row.
  rewrite (get_full_row_other tbl_application_status) by done.
  destruct (StatusType_of (get s "status")); [eexists|]; reflexivity.
Qed.

(** X12. ReadAllApplicationStatuses is all or nothing. With no engine
    error it returns a list exactly when every joined status row carries one
    of the ten status strings; one row with another string makes the whole
    call raise, and the exception is then ValueError. *)
Theorem read_all_statuses_all_or_nothing c :
  provider_connection c → fault_at c 0 = None →
  let result := (ReadAllX tbl_application_status c).1 in
  ((∃ vs, result = Ok vs) ↔
   (∀ k s r, row_of tbl_application_status k (working c) = Some s →
             status_join (working c) k s = Some r →
             ∃ m, StatusType_of (get s "status") = Ok m)) ∧
  (∀ e, result = Raise e → ∃ msg, e = ValueError msg).
Proof.
  intros Hauto Hf result. unfold result. rewrite ReadAllX_result by done.
  split.
  - rewrite mapM_result_Ok_iff. split.
    + intros Hall k s r Hs Hjoin.
      destruct (Hall r) as [x Hx].
      { apply list_elem_of_omap. exists (k, s). split; [|done].
        by apply rows_ordered_keys. }
      pose proof (row_mapper_status_outcome _ _ _ _ Hjoin) as Hout.
      destruct (StatusType_of (get s "status")); [eauto|congruence].
    + intros Hvalid r Hr.
      apply list_elem_of_omap in Hr as ([k s] & Hks & Hjoin). simpl in Hjoin.
      apply rows_ordered_keys in Hks.
      pose proof (row_mapper_status_outcome _ _ _ _ Hjoin) as Hout.
      destruct (Hvalid k s r Hks Hjoin) as [m Hm]. by rewrite Hm in Hout.
  - intros e He. apply mapM_result_Raise in He as (r & Hr & Hre).
    apply list_elem_of_omap in Hr as ([k s] & Hks & Hjoin). simpl in Hjoin.
    pose proof (row_mapper_status_outcome _ _ _ _ Hjoin) as Hout.
    destruct (StatusType_of (get s "status")) as [m|e'] eqn:Hm.
    + destruct Hout as [x Hx]. congruence.
    + rewrite Hout in Hre. injection Hre as <-. by eapply StatusType_of_error.
Qed.

Lemma read_all_statuses_all_or_nothing_witness :
  provider_connection unknown_status_connection ∧
  fault_at unknown_status_connection 0 = None ∧
  ∃ msg, (ReadAllX tbl_application_status unknown_status_connection).1
         = Raise (ValueError msg).
Proof.
  split; [split; reflexivity|]. split; [reflexivity|].
  assert (∃ e, (ReadAllX tbl_application_status unknown_status_connection).1 = Raise e)
    as (e & He) by (eexists; vm_compute; reflexivity).
  destruct (proj2 (read_all_statuses_all_or_nothing unknown_status_connection
                     (conj eq_refl eq_refl) eq_refl) e He) as [msg ->].
  exists msg. exact He.
Defined.

Lemma stored_status_row st :
  get (stored_row (AApplicationStatus st)) "application_id"
    = Application.application_id (ApplicationStatus.application st) ∧
  get (stored_row (AApplicationStatus st)) "contact_id" = contact_id_of st ∧
  get (stored_row (AApplicationStatus st)) "status"
    = VStr (StatusType_value (ApplicationStatus.status st)).
Proof.
  unfold stored_row.
  cbn [entity_table entity_params table_cols application_status_cols].
  generalize (Application.application_id (ApplicationStatus.application st)).
  generalize (contact_id_of st).
  generalize (VStr (StatusType_value (ApplicationStatus.status st))).
  intros v1 v2 v3. repeat split.
Qed.

Lemma key_of_Some v k : key_of v = Some k → v = VInt k.
Proof. destruct v; simpl; congruence. Qed.

Lemma left_join_contact_id d s :
  get (left_join_contact d s) "contact_id" = VNone ∨
  get (left_join_contact d s) "contact_id" = get s "contact_id".
Proof.
  unfold left_join_contact.
  destruct (key_of (get s "contact_id")) as [k|] eqn:Hk; [|by left].
  apply key_of_Some in Hk.
  destruct (rows (db_contact d) !! k); [|by left].
  right. by rewrite (get_full_row_pk tbl_contact).
Qed.

(** X4. CreateApplicationStatus, then ReadApplicationStatusByID. The object
    read back under the new identifier carries that identifier, the status
    member and the application identifier of the input; it has no contact when
    the input had none, and a contact it has carries the input's contact
    identifier; its application, job and company are the ones the stored rows
    reference. *)
Theorem create_status_then_read st c st' c1 r c2 :
  provider_connection c →
  CreateApplicationStatus st c = (Ok st', c1) →
  ReadApplicationStatusByID (ApplicationStatus.status_id st') c1 = (Ok (Some r), c2) →
  ApplicationStatus.status_id r = ApplicationStatus.status_id st' ∧
  ApplicationStatus.status r = ApplicationStatus.status st ∧
  Application.application_id (ApplicationStatus.application r)
    = Application.application_id (ApplicationStatus.application st) ∧
  (ApplicationStatus.contact st = None → ApplicationStatus.contact r = None) ∧
  (∀ ct, ApplicationStatus.contact r = Some ct →
         Contact.contact_id ct = contact_id_of st) ∧
  chain_consistent (committed c1) r.
Proof.
  intros Hauto Hcreate Hread.
  assert (CreateX (AApplicationStatus st) c = (Ok (AApplicationStatus st'), c1)) as Hx.
  { unfold CreateX. by rewrite M_fmap_unfold, Hcreate. }
  apply CreateX_Ok in Hx as [_ Hx]; [|done].
  apply create_form_Ok in Hx as (Hst' & Hauto1 & _ & Hwk & Hcm & _); [|done].
  set (k := next_id _) in *. simpl in Hst'. injection Hst' as ->. simpl in Hread.
  destruct (ReadApplicationStatusByID_inv _ _ _ _ Hauto1 Hread) as (s & r0 & Hs & Hjoin & Hmap).
  destruct (status_join_mapped _ _ _ _ _ Hs Hjoin Hmap) as [Hchain Hcontact].
  assert (s = stored_row (AApplicationStatus st)) as ->.
  { rewrite Hwk, Hcm in Hs. unfold row_of in Hs. rewrite db_get_set_eq in Hs. simpl in Hs.
    rewrite lookup_insert_eq in Hs. by injection Hs. }
  destruct (stored_status_row st) as (Happ & Hct & Hstatus).
  destruct (status_join_inv _ _ _ _ Hjoin)
    as (a_id & a & j_id & j & c_id & co & Hsa & _ & _ & _ & _ & _ & ->).
  rewrite mapper_join_row in Hmap.
  rewrite (get_full_row_other tbl_application_status) in Hmap by done.
  rewrite Hstatus, StatusType_of_value in Hmap. injection Hmap as <-.
  simpl in *. rewrite <- Hwk.
  split; [apply (get_full_row_pk tbl_application_status)|].
  split; [done|]. split.
  { rewrite (get_full_row_pk tbl_application). congruence. }
  split; [|split; [|done]].
  - intros Hnone.
    assert (contact_id_of st = VNone) as Hnull by (unfold contact_id_of; by rewrite Hnone).
    rewrite left_join_contact_null; [done|congruence].
  - intros ct.
    destruct (left_join_contact_id (working c1) (stored_row (AApplicationStatus st)))
      as [Hlj|Hlj].
    + by rewrite Hlj.
    + destruct (is_None _); [done|]. intros [= <-]. simpl. congruence.
Qed.

Lemma create_status_then_read_witness :
  provider_connection small_connection ∧
  ∃ st' c1 r c2,
    CreateApplicationStatus screen_status small_connection = (Ok st', c1) ∧
    ReadApplicationStatusByID (ApplicationStatus.status_id st') c1 = (Ok (Some r), c2) ∧
    ApplicationStatus.status r = SCREEN ∧ ApplicationStatus.contact r = None.
Proof.
  split; [split; reflexivity|].
  assert (∃ st' c1 r c2,
            CreateApplicationStatus screen_status small_connection = (Ok st', c1) ∧
            ReadApplicationStatusByID (ApplicationStatus.status_id st') c1
              = (Ok (Some r), c2)) as (st' & c1 & r & c2 & Hc & Hr)
    by (eexists _, _, _, _; split; vm_compute; reflexivity).
  exists st', c1, r, c2. split; [exact Hc|]. split; [exact Hr|].
  destruct (create_status_then_read screen_status small_connection st' c1 r c2
              (conj eq_refl eq_refl) Hc Hr) as (_ & Hstatus & _ & Hcontact & _).
  split; [exact Hstatus|]. apply Hcontact. reflexivity.
Defined.

(** ** Every call ends its transaction *)










Lemma create_form_runs x c :
  provider_connection c → faults c = [] →
  row_of (entity_table x) (next_id (db_get (entity_table x) (working c))) (working c) = None →
  ∃ c1, create_form x c
        = (Ok (with_id x (VInt (next_id (db_get (entity_table x) (working c))))), c1) ∧
        faults c1 = [].
Proof.
  intros Hauto Hf Hfree. unfold create_form.
  rewrite M_bind_unfold, _execute_write_closed by done.
  unfold write_closed_form, statement_outcome. rewrite !(fault_at_nil c) by done.
  rewrite exec_insert by apply entity_params_length. simpl. rewrite Hfree.
  eexists. split; [reflexivity|]. simpl. by rewrite Hf.
Qed.

Lemma read_closed_form_quiet q ps f1 f2 c :
  faults c = [] →
  let c' := (read_closed_form q ps f1 f2 c).2 in
  faults c' = [] ∧ autocommit c' = false ∧
  committed c' = committed c ∧ working c' = committed c.
Proof.
  intros Hf. unfold read_closed_form. simpl.
  rewrite (fault_at_nil c 1 Hf), Hf. done.
Qed.

Lemma update_form_runs x id c :
  provider_connection c → faults c = [] → entity_id x = VInt id →
  ∃ b c1, update_form x c = (Ok b, c1) ∧ faults c1 = [].
Proof.
  intros Hauto Hf Hid. unfold update_form. rewrite Hid.
  rewrite M_bind_unfold, _execute_update_delete_closed by done.
  unfold write_closed_form, statement_outcome. rewrite !(fault_at_nil c) by done.
  rewrite exec_update by apply entity_params_length. unfold no_change.
  assert (Hex : ∀ d lg,
            ∃ b c1, _exists (table_name (entity_table x)) (pk_col (entity_table x))
                            (VInt id) (Connection d d false false [] lg []) = (Ok b, c1) ∧
                    faults c1 = []).
  { intros d lg. unfold _exists. rewrite M_bind_unfold, _execute_closed by done.
    unfold read_closed_form, statement_outcome, fault_at. simpl.
    rewrite exec_exists. simpl. eexists _, _. split; reflexivity. }
  rewrite Hf. simpl.
  destruct (row_of _ id (working c)) as [old|]; simpl.
  - case_bool_decide; simpl; [apply Hex|].
    eexists _, _. split; reflexivity.
  - apply Hex.
Qed.

Lemma delete_form_runs t id c :
  provider_connection c → faults c = [] →
  ∃ b c1, delete_form t (VInt id) c = (Ok b, c1) ∧ faults c1 = [].
Proof.
  intros Hauto Hf. unfold delete_form.
  rewrite M_bind_unfold, _execute_update_delete_closed by done.
  unfold write_closed_form, statement_outcome. rewrite !(fault_at_nil c) by done.
  rewrite exec_delete. unfold no_change.
  destruct (row_of t id (working c)); simpl; eexists _, _;
    (split; [reflexivity|]); simpl; by rewrite Hf.
Qed.

(** X15. Step 3 of the smoke test. On a connection where the engine raises
    no error, the create returns the company under the next identifier, the
    update returns [True], the fetch returns the company at its new location,
    the delete returns [True]; afterwards the company table has the rows it
    had before and the other tables are untouched. *)
Theorem smoke_test_crud_restores_table unique_name c :
  provider_connection c → faults c = [] →
  let k := next_id (db_company (working c)) in
  row_of tbl_company k (working c) = None →
  ∃ c',
    smoke_test_company_crud unique_name c =
      (Ok (Company.Build (VInt k) unique_name (VStr "https://test.example.com")
                         (VStr "Remote"),
           true,
           Some (Company.Build (VInt k) unique_name (VStr "https://test.example.com")
                               (VStr "Austin, TX")),
           true), c') ∧
    rows (db_company (committed c')) = rows (db_company (working c)) ∧
    (∀ t, t ≠ tbl_company → db_get t (committed c') = db_get t (working c)).
Proof.
  intros Hauto Hf k Hfree.
  set (new := Company.Build VNone unique_name (VStr "https://test.example.com")
                            (VStr "Remote")).
  set (moved := Company.Build (VInt k) unique_name (VStr "https://test.example.com")
                              (VStr "Austin, TX")).
  (* create *)
  destruct (create_form_runs (ACompany new) c Hauto Hf Hfree) as (c1 & Hc1 & Hf1).
  pose proof (create_form_Ok _ _ _ _ Hauto Hc1) as (_ & Hauto1 & _ & Hwk1 & Hcm1 & _).
  cbn [entity_table] in Hcm1.
  rewrite <- CreateX_form in Hc1 by done.
  unfold CreateX in Hc1. rewrite M_fmap_unfold in Hc1.
  destruct (CreateCompany new c) as [[created|e] c1'] eqn:Hcreate; [|done].
  injection Hc1 as Hcreated ->. simpl in Hcreated. fold k in Hcreated.
  (* update *)
  destruct (update_form_runs (ACompany moved) k c1 Hauto1 Hf1 eq_refl) as (b & c2 & Hc2 & Hf2).
  pose proof (update_form_Ok (ACompany moved) k c1 b c2 Hauto1 eq_refl Hc2)
    as (Hb & Hauto2 & Hwk2 & Hrow2 & Hk2 & Ht2 & _).
  rewrite <- UpdateX_form in Hc2 by done.
  cbn [UpdateX] in Hc2. cbn [entity_table] in Hb, Hrow2, Hk2, Ht2.
  assert (row_of tbl_company k (working c1) = Some (stored_row (ACompany new))) as Hrow1.
  { rewrite Hwk1, Hcm1. unfold row_of. rewrite db_get_set_eq. apply lookup_insert_eq. }
  rewrite Hrow1 in Hb, Hrow2. simpl in Hb, Hrow2.
  (* read *)
  pose proof (ReadXByID_result tbl_company k c2 Hauto2) as Hres.
  rewrite (fault_at_nil c2 0 Hf2) in Hres.
  rewrite (rows_by_id_plain tbl_company k (working c2)
             (stored_row (ACompany moved) ∪ stored_row (ACompany new)))
    in Hres by (done || (rewrite Hwk2; exact Hrow2)).
  rewrite (project_ext _ _ (full_row tbl_company k (stored_row (ACompany moved)))) in Hres
    by apply (get_full_row_union (ACompany moved)).
  rewrite (row_mapper_stored (ACompany moved)) in Hres by done.
  assert (∃ c3, ReadCompanyByID (VInt k) c2 = (Ok (Some moved), c3) ∧
                provider_connection c3 ∧ faults c3 = [] ∧
                working c3 = committed c2 ∧ committed c3 = committed c2)
    as (c3 & Hc3 & Hauto3 & Hf3 & Hwk3 & Hcm3).
  { pose proof (ReadXByID_form tbl_company (VInt k) c2) as Hform.
    rewrite read_one_form_mapped in Hform. cbv zeta in Hform.
    rewrite _execute_closed in Hform by done.
    destruct (read_closed_form_quiet (select_by_id tbl_company) [VInt k] true false c2 Hf2)
      as (? & ? & ? & ?).
    unfold ReadXByID in Hres, Hform. rewrite M_fmap_unfold in Hres, Hform.
    destruct (ReadCompanyByID (VInt k) c2) as [[[v|]|e] c3] eqn:Hread; simpl in Hres;
      try done.
    injection Hres as ->. exists c3. split; [done|].
    injection Hform as _ ->. done. }
  (* delete *)
  destruct (delete_form_runs tbl_company k c3 Hauto3 Hf3) as (b4 & c4 & Hc4 & Hf4).
  pose proof (delete_form_Ok _ _ _ _ _ Hauto3 Hc4) as (Hb4 & _ & _ & Hcm4).
  rewrite <- DeleteX_form in Hc4. cbn [DeleteX] in Hc4.
  assert (row_of tbl_company k (working c3) = Some (stored_row (ACompany moved)
                                                    ∪ stored_row (ACompany new))) as Hrow3
    by (by rewrite Hwk3).
  rewrite Hrow3 in Hb4. simpl in Hb4.
  exists c4. split; [|split].
  - unfold smoke_test_company_crud. fold new. rewrite M_bind_unfold, Hcreate.
    subst created. cbn [Company.company_id Company.replace_company_id]. fold moved.
    rewrite M_bind_unfold, Hc2, M_bind_unfold, Hc3, M_bind_unfold, Hc4.
    by rewrite Hb, Hb4.
  - rewrite Hcm4, Hwk3. simpl.
    apply map_eq. intros i. destruct (decide (i = k)) as [->|Hik].
    + rewrite lookup_delete_eq. symmetry. exact Hfree.
    + rewrite lookup_delete_ne by done.
      change (row_of tbl_company i (committed c2) = row_of tbl_company i (working c)).
      rewrite (Hk2 i Hik), Hwk1, Hcm1. unfold row_of. rewrite db_get_set_eq. simpl.
      by rewrite lookup_insert_ne.
  - intros t Ht. rewrite Hcm4, Hwk3, db_get_set_ne by done.
    rewrite (Ht2 t Ht), Hwk1, Hcm1. by rewrite db_get_set_ne.
Qed.

Lemma smoke_test_crud_restores_table_witness :
  provider_connection small_connection ∧
  ∃ c', smoke_test_company_crud (VStr "Test Company 1") small_connection =
          (Ok (Company.Build (VInt 2) (VStr "Test Company 1")
                             (VStr "https://test.example.com") (VStr "Remote"),
               true,
               Some (Company.Build (VInt 2) (VStr "Test Company 1")
                                   (VStr "https://test.example.com") (VStr "Austin, TX")),
               true), c') ∧
        rows (db_company (committed c')) = rows (db_company small_database).
Proof.
  split; [split; reflexivity|].
  destruct (smoke_test_crud_restores_table (VStr "Test Company 1") small_connection
              (conj eq_refl eq_refl) eq_refl eq_refl) as (c' & Hrun & Hrows & _).
  exists c'. split; [exact Hrun|exact Hrows].
Defined.

(** ** ReadAll returns every row, in order *)

Lemma references_row t col t' d k r :
  references t col t' d = true → row_of t k d = Some r →
  ∃ k' r', get r col = VInt k' ∧ row_of t' k' d = Some r'.
Proof.
  unfold references, row_of. intros Hall Hr.
  rewrite forallb_forall in Hall.
  specialize (Hall (k, r)). simpl in Hall.
  assert (In (k, r) (map_to_list (rows (db_get t d)))) as Hin.
  { apply list_elem_of_In. by apply elem_of_map_to_list. }
  specialize (Hall Hin).
  destruct (get r col) as [|k'| | |]; try done. simpl in Hall.
  apply bool_decide_eq_true in Hall as [r' Hr']. eauto.
Qed.

Lemma status_join_total d k s :
  foreign_keys_valid d → row_of tbl_application_status k d = Some s →
  is_Some (status_join d k s).
Proof.
  intros (Hs & Ha & Hj) Hrow.
  destruct (references_row _ _ _ _ _ _ Hs Hrow) as (a_id & a & Hsa & Har).
  destruct (references_row _ _ _ _ _ _ Ha Har) as (j_id & j & Haj & Hjr).
  destruct (references_row _ _ _ _ _ _ Hj Hjr) as (c_id & co & Hjc & Hcr).
  unfold status_join, row_of in *. simpl in Har, Hjr, Hcr.
  rewrite Hsa. simpl. rewrite Har. simpl. rewrite Haj. simpl. rewrite Hjr. simpl.
  rewrite Hjc. simpl. rewrite Hcr. simpl. eauto.
Qed.

Lemma status_column_valid_row d k s :
  status_column_valid d → row_of tbl_application_status k d = Some s →
  ∃ m, StatusType_of (get s "status") = Ok m.
Proof.
  unfold status_column_valid, row_of. simpl. intros Hall Hs.
  rewrite forallb_forall in Hall. specialize (Hall (k, s)). simpl in Hall.
  destruct (StatusType_of (get s "status")) as [m|e]; [eauto|].
  assert (In (k, s) (map_to_list (rows (db_application_status d)))) as Hin.
  { apply list_elem_of_In. by apply elem_of_map_to_list. }
  specialize (Hall Hin). done.
Qed.

(** Every object of the result is the mapper's image of the row selected
    for one stored row, in the order of the rows. *)
Lemma mapped_rows t d l vs :
  (∀ kr, kr ∈ l → row_of t kr.1 d = Some kr.2) →
  mapM (row_mapper t) (omap (select_row t d) l) = Ok vs →
  Forall2 (λ x k, ∃ s r, row_of t k d = Some s ∧ select_row t d (k, s) = Some r ∧
                         row_mapper t r = Ok x)
          vs (filter (λ kr, is_Some (select_row t d kr)) l).*1.
Proof.
  revert vs. induction l as [|[k s] l IH]; intros vs Hl; simpl.
  - intros [= <-]. constructor.
  - assert (Hl' : ∀ kr, kr ∈ l → row_of t kr.1 d = Some kr.2)
      by (intros kr Hkr; apply Hl; by right).
    destruct (select_row t d (k, s)) as [r|] eqn:Hsel; simpl.
    + rewrite filter_cons_True by (rewrite Hsel; eauto).
      destruct (row_mapper t r) as [x|e] eqn:Hx; [|done]. simpl.
      destruct (mapM _ _) as [vs'|e]; [|done]. simpl.
      intros [= <-]. simpl. constructor; [|by apply IH].
      exists s, r. split; [|done]. apply (Hl (k, s)). by left.
    + rewrite filter_cons_False by (rewrite Hsel; by intros [? ?]).
      by apply IH.
Qed.

(** C9. For each of the five entities, whenever ReadAllX returns, its
    entries are the objects of the rows its SELECT returns, one per row, in
    strictly ascending order of their integer identifiers: every row of the
    table for the four plain entities, and for the statuses every row the
    joins keep, which is every row when the foreign keys reference existing
    rows, as the schema demands.  On an empty table it returns the empty
    list, not an error; and it returns whenever the SELECT does not fail,
    for the statuses provided the stored status strings are members of the
    enum. *)
Theorem read_all_ascending_by_id t c :
  provider_connection c →
  (∀ vs c', ReadAllX t c = (Ok vs, c') →
     ∃ ks, entity_id <$> vs = VInt <$> ks ∧
           StronglySorted Z.lt ks ∧
           Forall2 (λ x k, ∃ s r, row_of t k (working c) = Some s ∧
                                  select_row t (working c) (k, s) = Some r ∧
                                  row_mapper t r = Ok x) vs ks ∧
           (∀ k, k ∈ ks ↔ ∃ s, row_of t k (working c) = Some s ∧
                               is_Some (select_row t (working c) (k, s))) ∧
           (t ≠ tbl_application_status ∨ foreign_keys_valid (working c) →
              ∀ k, k ∈ ks ↔ is_Some (row_of t k (working c)))) ∧
  (fault_at c 0 = None → rows (db_get t (working c)) = ∅ →
     (ReadAllX t c).1 = Ok []) ∧
  (fault_at c 0 = None →
   (t = tbl_application_status → status_column_valid (working c)) →
     ∃ vs, (ReadAllX t c).1 = Ok vs).
Proof.
  intros Hauto. split; [|split].
  - intros vs c' Hread.
    destruct (fault_at c 0) as [n|] eqn:Hfault.
    { rewrite ReadAllX_form, read_many_closed, Hfault in Hread by done. done. }
    pose proof (ReadAllX_result t c Hauto Hfault) as Hres.
    rewrite Hread in Hres. simpl in Hres. symmetry in Hres.
    destruct (rows_ordered_keys t (working c)) as [Hsorted Hkeys].
    set (l := rows_ordered t (working c)) in *.
    set (P := λ kr : Z * row, is_Some (select_row t (working c) kr)).
    assert (Hmem : ∀ k, k ∈ (filter P l).*1 ↔
                        ∃ s, row_of t k (working c) = Some s ∧
                             is_Some (select_row t (working c) (k, s))).
    { intros k. split.
      - intros Hk. apply list_elem_of_fmap in Hk as ([k' s] & -> & Hin).
        apply list_elem_of_filter in Hin as [HP Hin].
        apply Hkeys in Hin. exists s. done.
      - intros (s & Hs & Hsel). apply list_elem_of_fmap. exists (k, s). split; [done|].
        apply list_elem_of_filter. split; [done|by apply Hkeys]. }
    exists (filter P l).*1.
    split; [by apply mapped_ids|]. split; [|split; [|split; [done|]]].
    + eapply StronglySorted_sublist; [|exact Hsorted].
      apply fmap_sublist, sublist_filter.
    + apply mapped_rows; [|done]. intros [k s] Hks. by apply Hkeys.
    + intros Hall k. rewrite Hmem. split; [intros (s & Hs & _); eauto|].
      intros [s Hs]. exists s. split; [done|].
      destruct (decide (t = tbl_application_status)) as [->|Ht].
      * destruct Hall as [?|Hfk]; [done|]. by apply status_join_total.
      * destruct t; try done; simpl; eauto.
  - intros Hfault Hempty. rewrite ReadAllX_result by done.
    unfold rows_ordered. rewrite Hempty, map_to_list_empty. reflexivity.
  - intros Hfault Hvalid. rewrite ReadAllX_result by done.
    destruct (decide (t = tbl_application_status)) as [->|Ht];
      [|by apply mapM_plain_rows].
    apply mapM_result_Ok_iff. intros r Hr.
    apply list_elem_of_omap in Hr as ([k s] & Hks & Hjoin). simpl in Hjoin.
    apply rows_ordered_keys in Hks.
    pose proof (row_mapper_status_outcome _ _ _ _ Hjoin) as Hout.
    destruct (status_column_valid_row _ _ _ (Hvalid eq_refl) Hks) as [m Hm].
    by rewrite Hm in Hout.
Qed.

Lemma read_all_ascending_by_id_witness :
  provider_connection (sample_connection []) ∧
  foreign_keys_valid sample_database ∧ status_column_valid sample_database ∧
  ∃ vs c', ReadAllX tbl_application_status (sample_connection []) = (Ok vs, c') ∧
           ∃ ks, entity_id <$> vs = VInt <$> ks ∧ StronglySorted Z.lt ks ∧
                 1 ∈ ks ∧ 2 ∈ ks.
Proof.
  assert (Hfk : foreign_keys_valid sample_database) by (repeat split; vm_compute; reflexivity).
  assert (Hst : status_column_valid sample_database) by (vm_compute; reflexivity).
  split; [split; reflexivity|]. split; [exact Hfk|]. split; [exact Hst|].
  destruct (proj2 (proj2 (read_all_ascending_by_id tbl_application_status
                            (sample_connection []) (conj eq_refl eq_refl)))
                  eq_refl (λ _, Hst)) as [vs Hvs].
  destruct (ReadAllX tbl_application_status (sample_connection [])) as [res c'] eqn:Hread.
  simpl in Hvs. subst res. exists vs, c'. split; [reflexivity|].
  destruct (proj1 (read_all_ascending_by_id tbl_application_status
                     (sample_connection []) (conj eq_refl eq_refl)) vs c' Hread)
    as (ks & Hids & Hsorted & _ & _ & Hall).
  exists ks. split; [exact Hids|]. split; [exact Hsorted|].
  split; apply (Hall (or_intror Hfk)); eexists; reflexivity.
Defined.
